(** * k1-pro driver (k1pro_python.py): frame codec, upload protocol,
      discovery, event decoding and control-lock discipline.

    Each method of the Python class [K1Pro] is embedded as a program: the
    finite tree of its atomic actions (reading or assigning a field of the
    object, taking or releasing the control lock, opening, closing, writing
    to or reading from a HID device, sleeping, printing), ending in a value
    or in a raised exception.  A program is run in two ways: on its own
    ([run]), against a transport whose oracles decide which open attempt and
    which write succeeds, and as one of several threads whose actions are
    interleaved under the lock ([step]). *)

From Stdlib Require Import List ZArith Lia Bool Arith PeanoNat.
Import ListNotations.

Local Open Scope Z_scope.

(** ** Python exceptions, one constructor per raise site of the driver *)

Inductive exn : Type :=
| DeviceNotFound            (* RuntimeError: k1-pro device not found (connect) *)
| ControlInterfaceNotFound  (* RuntimeError: Control interface not found (connect) *)
| ControlEndpointNotFound   (* RuntimeError: Control endpoint not found (_open_control) *)
| EventEndpointNotFound     (* RuntimeError: Event endpoint not found (_open_events) *)
| OpenFailed                (* RuntimeError: Failed to open control device after 5 attempts *)
| NotConnected              (* RuntimeError: Device not connected. Call connect() first. *)
| InvalidButtonIndex (button_index : Z)  (* ValueError: Invalid button index *)
| IndexError                (* list / bytes index out of range *)
| ByteRangeError            (* ValueError: byte must be in range(0, 256) *)
| NotInList                 (* ValueError: x is not in list *)
| OSError.                  (* the transport refused an open or a write *)

Inductive outcome (A : Type) : Type :=
| Ok (a : A)
| Raise (e : exn).
Arguments Ok {A} a.
Arguments Raise {A} e.

Definition obind {A B : Type} (o : outcome A) (k : A -> outcome B) : outcome B :=
  match o with
  | Ok a => k a
  | Raise e => Raise e
  end.

(** ** Python sequence primitives *)

Module Py.

(** [l[i]] on a list or bytes object: negative indices count from the end,
    anything outside [-len, len) raises IndexError. *)
Definition getitem (l : list Z) (i : Z) : outcome Z :=
  let n := Z.of_nat (length l) in
  if (0 <=? i) && (i <? n) then Ok (nth (Z.to_nat i) l 0)
  else if (- n <=? i) && (i <? 0) then Ok (nth (Z.to_nat (i + n)) l 0)
  else Raise IndexError.

(** [l[lo:hi]] for non-negative bounds; both bounds are clamped to [len]. *)
Definition slice {A : Type} (l : list A) (lo hi : nat) : list A :=
  firstn (hi - lo) (skipn lo l).

(** [b[i] = v] on a bytearray, for a non-negative index: the index is
    checked first, then the value. *)
Definition bytearray_setitem (b : list Z) (i : nat) (v : Z) : outcome (list Z) :=
  if negb (i <? length b)%nat then Raise IndexError
  else if negb ((0 <=? v) && (v <? 256)) then Raise ByteRangeError
  else Ok (firstn i b ++ v :: skipn (S i) b).

(** [b[lo:hi] = v] on a bytearray, for non-negative bounds: the bounds are
    clamped to [len b], an empty or reversed range inserts at [lo], and the
    bytearray grows or shrinks when [v] is not as long as the range. *)
Definition bytearray_setslice (b : list Z) (lo hi : nat) (v : list Z) : list Z :=
  let lo' := Nat.min lo (length b) in
  let hi' := Nat.max lo' (Nat.min hi (length b)) in
  firstn lo' b ++ v ++ skipn hi' b.

(** [range(start, stop, step)] for [step > 0].  Each round advances by at
    least one, so [stop - start] rounds of fuel are never used up. *)
Fixpoint range_from (fuel i stop step : nat) : list nat :=
  match fuel with
  | O => []
  | S fuel' =>
      if (i <? stop)%nat then i :: range_from fuel' (i + step) stop step
      else []
  end.

Definition range (start stop step : nat) : list nat :=
  range_from (stop - start) start stop step.

(** [x in l] and [l.index(x)] on a list of ints. *)
Definition contains (l : list Z) (x : Z) : bool :=
  existsb (Z.eqb x) l.

Fixpoint index_from (l : list Z) (x : Z) (k : Z) : outcome Z :=
  match l with
  | [] => Raise NotInList
  | y :: l' => if x =? y then Ok k else index_from l' x (k + 1)
  end.

Definition index (l : list Z) (x : Z) : outcome Z := index_from l x 0.

End Py.

(** ** Device constants *)

Definition VENDOR_ID : Z := 0x5548.
Definition PRODUCT_ID : Z := 0x1025.
Definition USAGE_PAGE : Z := 0xffa0.
Definition REPORT_ID : Z := 0x04.
Definition WRITE_SIZE : nat := 1024.
Definition DATA_SIZE : nat := 1023.

(** Settle delays, in microseconds. *)
Definition TIMING_BAT_HEADER : Z := 10000.
Definition TIMING_JPEG_CHUNK : Z := 10000.
Definition TIMING_STP_CMD : Z := 10000.

Definition CRT : list Z := [0x43; 0x52; 0x54; 0x00; 0x00].

Definition STP_COMMAND : list Z := CRT ++ [0x53; 0x54; 0x50; 0x00; 0x00].
Definition CONNECT_COMMAND : list Z := CRT ++ [0x43; 0x4f; 0x4e; 0x4e; 0x45; 0x43; 0x54].
Definition CLE_COMMAND : list Z := CRT ++ [0x43; 0x4c; 0x45; 0x00; 0x00; 0x00; 0xff].
Definition DIS_COMMAND : list Z := CRT ++ [0x44; 0x49; 0x53; 0x00; 0x00].
Definition WAKE_COMMAND : list Z := CRT ++ [0x77; 0x61; 0x6b; 0x65; 0x00].
Definition LIG_COMMAND : list Z := CRT ++ [0x4c; 0x49; 0x47; 0x00; 0x00; 0x00; 0x19].
Definition QUCMD_COMMAND : list Z :=
  CRT ++ [0x51; 0x55; 0x43; 0x4d; 0x44; 0x11; 0x11; 0x00; 0x11; 0x00; 0x11].
Definition CPOS_COMMAND : list Z := CRT ++ [0x43; 0x50; 0x4f; 0x53; 0x00; 0x4d].

(** The ten bytes [b'CRT\x00\x00BAT\x00\x00'] that open the image header. *)
Definition BAT_PREFIX : list Z := CRT ++ [0x42; 0x41; 0x54; 0x00; 0x00].

(** Button index (0-5) -> protocol ID. *)
Definition BUTTON_ID_MAP : list Z := [5; 3; 1; 6; 4; 2].

Definition _map_button_for_image (button_index : Z) : outcome Z :=
  Py.getitem BUTTON_ID_MAP button_index.

(** ** Frame codec *)

(** The packet [_write_report] hands to the transport:
      packet = bytearray(WRITE_SIZE); packet[0] = REPORT_ID;
      packet[1:1 + len(payload)] = payload. *)
Definition report_packet (payload : list Z) : outcome (list Z) :=
  obind (Py.bytearray_setitem (repeat 0 WRITE_SIZE) 0 REPORT_ID) (fun packet =>
  Ok (Py.bytearray_setslice packet 1 (1 + length payload) payload)).

(** The BAT header built at the top of [_send_jpeg_to_button]:
      header = bytearray(13); header[0:10] = b'CRT\0\0BAT\0\0';
      header[10] = (size >> 8) & 0xFF; header[11] = size & 0xFF;
      header[12] = button_id. *)
Definition bat_header (size : Z) (button_id : Z) : outcome (list Z) :=
  let header := Py.bytearray_setslice (repeat 0 13%nat) 0 10 BAT_PREFIX in
  obind (Py.bytearray_setitem header 10 (Z.land (Z.shiftr size 8) 0xFF)) (fun header =>
  obind (Py.bytearray_setitem header 11 (Z.land size 0xFF)) (fun header =>
  Py.bytearray_setitem header 12 button_id)).

(** The chunks of the loop
      for i in range(0, len(jpeg_data), DATA_SIZE):
          chunk = jpeg_data[i:i + DATA_SIZE]. *)
Definition jpeg_chunks (jpeg_data : list Z) : list (list Z) :=
  map (fun i => Py.slice jpeg_data i (i + DATA_SIZE))
      (Py.range 0 (length jpeg_data) DATA_SIZE).

(** ** The driver object and the HID transport *)

(** One entry of [hid.enumerate()]. *)
Record hid_info : Type := {
  vendor_id : Z;
  product_id : Z;
  usage_page : Z;
  usage : Z;
  path : list Z
}.

(** The transport is an external collaborator.  What it enumerates is fixed;
    whether the n-th open attempt and the n-th write succeed is decided by
    two oracles, so that every pattern of transient failures is covered, and
    a third gives the bytes of the n-th read (empty on a timeout).  A refused
    open or write raises OSError. *)
Record transport : Type := {
  devices : list hid_info;
  open_ok : nat -> bool;
  write_ok : nat -> bool;
  read_data : nat -> list Z
}.

(** [hid.enumerate(vid, pid)]: zero is the wildcard. *)
Definition hid_enumerate (t : transport) (vid pid : Z) : list hid_info :=
  filter (fun d => ((vid =? 0) || (vendor_id d =? vid))
                   && ((pid =? 0) || (product_id d =? pid)))
         (devices t).

(** A Python dict from button index to JPEG bytes, in insertion order:
    assigning to an existing key keeps its position, a new key goes last. *)
Module Dict.

Definition t : Type := list (Z * list Z).

Fixpoint get (d : t) (k : Z) : option (list Z) :=
  match d with
  | [] => None
  | (k', v) :: d' => if k =? k' then Some v else get d' k
  end.

Fixpoint set (d : t) (k : Z) (v : list Z) : t :=
  match d with
  | [] => [(k, v)]
  | (k', v') :: d' => if k =? k' then (k', v) :: d' else (k', v') :: set d' k v
  end.

Definition items (d : t) : list (Z * list Z) := d.

(** Truth value of a dict: non-empty. *)
Definition truthy (d : t) : bool :=
  match d with [] => false | _ => true end.

End Dict.

(** The fields of a [K1Pro] instance.  The keepalive thread handle and its
    stop event are inputs of the keepalive loop below; the lock is an
    action. *)
Record K1Pro : Type := {
  connected : bool;
  _control_path : option (list Z);
  _event_path : option (list Z);
  _button_images : Dict.t
}.

(** [K1Pro.__init__]. *)
Definition __init__ : K1Pro :=
  {| connected := false; _control_path := None; _event_path := None;
     _button_images := [] |}.

Definition set_connected (b : bool) (self : K1Pro) : K1Pro :=
  {| connected := b; _control_path := _control_path self;
     _event_path := _event_path self; _button_images := _button_images self |}.

Definition set_control_path (p : list Z) (self : K1Pro) : K1Pro :=
  {| connected := connected self; _control_path := Some p;
     _event_path := _event_path self; _button_images := _button_images self |}.

Definition set_event_path (p : list Z) (self : K1Pro) : K1Pro :=
  {| connected := connected self; _control_path := _control_path self;
     _event_path := Some p; _button_images := _button_images self |}.

Definition set_button_images_item (k : Z) (v : list Z) (self : K1Pro) : K1Pro :=
  {| connected := connected self; _control_path := _control_path self;
     _event_path := _event_path self;
     _button_images := Dict.set (_button_images self) k v |}.

(** Truth value of an optional bytes path: [None] and [b''] are false. *)
Definition path_truthy (p : option (list Z)) : bool :=
  match p with
  | Some (_ :: _) => true
  | _ => false
  end.

(** ** Lines printed by the driver and by the event loop of [main] *)

Inductive line : Type :=
| Looking
| Found (n : nat)
| ConnectedAndInitialized
| Skipping (button_index : Z)
| Updated (button : Z) (position : Z) (total : nat)
| DeviceClosed
| BUTTON (phys_idx : Z) (pressed : bool)
| KNOB_TURN (knob : Z) (clockwise : bool)
| KNOB_PRESSED (knob : Z)
| UNKNOWN (control_id state : Z) (raw : list Z)
| RELEASE (raw : list Z)
| PRESS (key_id : Z) (raw : list Z)
| RPT (report_id : Z) (raw : list Z)
| RefreshFailed (e : exn).

(** ** Programs: the atomic actions of a method, in order *)

Inductive prog (A : Type) : Type :=
| Ret (r : outcome A)
| GetSelf (k : K1Pro -> prog A)
| SetSelf (f : K1Pro -> K1Pro) (k : prog A)
| HidEnumerate (vid pid : Z) (k : list hid_info -> prog A)
| LockAcquire (k : prog A)
| LockRelease (k : prog A)
| OpenPath (p : list Z) (k : bool -> prog A)
| DevClose (p : list Z) (k : prog A)
| DevWrite (packet : list Z) (k : bool -> prog A)
| DevRead (k : list Z -> prog A)
| Sleep (us : Z) (k : prog A)
| PrintLine (l : line) (k : prog A).
Arguments Ret {A} r.
Arguments GetSelf {A} k.
Arguments SetSelf {A} f k.
Arguments HidEnumerate {A} vid pid k.
Arguments LockAcquire {A} k.
Arguments LockRelease {A} k.
Arguments OpenPath {A} p k.
Arguments DevClose {A} p k.
Arguments DevWrite {A} packet k.
Arguments DevRead {A} k.
Arguments Sleep {A} us k.
Arguments PrintLine {A} l k.

(** Graft a continuation on every way a program can end. *)
Fixpoint subst {A B : Type} (p : prog A) (f : outcome A -> prog B) : prog B :=
  match p with
  | Ret r => f r
  | GetSelf k => GetSelf (fun s => subst (k s) f)
  | SetSelf g k => SetSelf g (subst k f)
  | HidEnumerate vid pid k => HidEnumerate vid pid (fun l => subst (k l) f)
  | LockAcquire k => LockAcquire (subst k f)
  | LockRelease k => LockRelease (subst k f)
  | OpenPath p k => OpenPath p (fun b => subst (k b) f)
  | DevClose p k => DevClose p (subst k f)
  | DevWrite packet k => DevWrite packet (fun b => subst (k b) f)
  | DevRead k => DevRead (fun data => subst (k data) f)
  | Sleep us k => Sleep us (subst k f)
  | PrintLine l k => PrintLine l (subst k f)
  end.

Definition ret {A : Type} (a : A) : prog A := Ret (Ok a).
Definition raise {A : Type} (e : exn) : prog A := Ret (Raise e).
Definition lift {A : Type} (o : outcome A) : prog A := Ret o.

Definition bind {A B : Type} (p : prog A) (k : A -> prog B) : prog B :=
  subst p (fun r => match r with Ok a => k a | Raise e => Ret (Raise e) end).

(** [try: body finally: fin]: an exception of [fin] replaces the result. *)
Definition try_finally {A : Type} (body : prog A) (fin : prog unit) : prog A :=
  subst body (fun r => bind fin (fun _ => Ret r)).

(** [try: body except <handles> as e: handler e]. *)
Definition try_except {A : Type} (body : prog A) (handles : exn -> bool)
    (handler : exn -> prog A) : prog A :=
  subst body (fun r =>
    match r with
    | Ok a => Ret (Ok a)
    | Raise e => if handles e then handler e else Ret (Raise e)
    end).

Declare Scope prog_scope.
Delimit Scope prog_scope with prog.
Notation "x <- c ;; k" := (bind c (fun x => k))
  (at level 61, c at next level, right associativity) : prog_scope.
Notation "c ;; k" := (bind c (fun _ => k))
  (at level 61, right associativity) : prog_scope.
Local Open Scope prog_scope.

Definition get_self : prog K1Pro := GetSelf (fun s => ret s).
Definition set_self (f : K1Pro -> K1Pro) : prog unit := SetSelf f (ret tt).
Definition enumerate (vid pid : Z) : prog (list hid_info) :=
  HidEnumerate vid pid (fun l => ret l).
Definition sleep (us : Z) : prog unit := Sleep us (ret tt).
Definition print (l : line) : prog unit := PrintLine l (ret tt).
Definition dev_close (device : list Z) : prog unit := DevClose device (ret tt).
Definition dev_write (packet : list Z) : prog unit :=
  DevWrite packet (fun ok => if ok then ret tt else raise OSError).
Definition dev_read : prog (list Z) := DevRead (fun data => ret data).
Definition open_path (p : list Z) : prog unit :=
  OpenPath p (fun ok => if ok then ret tt else raise OSError).

(** [with self._control_lock: body]. *)
Definition with_control_lock {A : Type} (body : prog A) : prog A :=
  LockAcquire (try_finally body (LockRelease (ret tt))).

(** [for x in l: body x]. *)
Fixpoint for_each {X : Type} (l : list X) (body : X -> prog unit) : prog unit :=
  match l with
  | [] => ret tt
  | x :: l' => body x ;; for_each l' body
  end.

(** [enumerate(l)]. *)
Definition py_enumerate {X : Type} (l : list X) : list (Z * X) :=
  combine (map Z.of_nat (seq 0 (length l))) l.

(** Every exception of the driver is an [Exception]; only a refused open or
    write is an [OSError]. *)
Definition is_Exception (e : exn) : bool := true.
Definition is_OSError (e : exn) : bool :=
  match e with OSError => true | _ => false end.

(** ** The methods of [K1Pro] *)

Definition KEEPALIVE_INTERVAL : Z := 50000.
Definition CONNECT_INTERVAL : Z := 10000000.
Definition max_retries : nat := 5.

Definition valid_button_index (button_index : Z) : bool :=
  (0 <=? button_index) && (button_index <? 6).

(** First interface on the fixed usage page with the given usage. *)
Definition find_endpoint (us : Z) (l : list hid_info) : option hid_info :=
  find (fun dev => (usage_page dev =? USAGE_PAGE) && (usage dev =? us)) l.

Definition _write_report (device : list Z) (payload : list Z) : prog unit :=
  packet <- lift (report_packet payload) ;;
  dev_write packet.

(** The retry loop of [_open_control], [for attempt in range(max_retries)].
    The last round returns or raises, so the loop is never left at its end. *)
Fixpoint open_retry (attempts : list nat) (p : list Z) : prog (list Z) :=
  match attempts with
  | [] => ret p
  | attempt :: rest =>
      opened <- try_except (open_path p ;; ret true) is_OSError
                  (fun _ => if (attempt <? max_retries - 1)%nat
                            then sleep 100000 ;; ret false
                            else raise OpenFailed) ;;
      if opened : bool then ret p else open_retry rest p
  end.

(** The path is the handle of the opened device. *)
Definition _open_control : prog (list Z) :=
  self <- get_self ;;
  p <- match _control_path self with
       | Some p => ret p
       | None =>
           l <- enumerate VENDOR_ID PRODUCT_ID ;;
           match find_endpoint 1 l with
           | Some dev => set_self (set_control_path (path dev)) ;; ret (path dev)
           | None => raise ControlEndpointNotFound
           end
       end ;;
  open_retry (seq 0 max_retries) p.

Definition _open_events : prog (list Z) :=
  self <- get_self ;;
  p <- match _event_path self with
       | Some p => ret p
       | None =>
           l <- enumerate VENDOR_ID PRODUCT_ID ;;
           match find_endpoint 2 l with
           | Some dev => set_self (set_event_path (path dev)) ;; ret (path dev)
           | None => raise EventEndpointNotFound
           end
       end ;;
  open_path p ;;
  ret p.

Definition send_init : prog unit :=
  with_control_lock (
    device <- _open_control ;;
    try_finally (
      _write_report device DIS_COMMAND ;; sleep 1000 ;;
      _write_report device WAKE_COMMAND ;; sleep 1000 ;;
      _write_report device LIG_COMMAND ;; sleep 100 ;;
      _write_report device QUCMD_COMMAND ;; sleep 100 ;;
      _write_report device CPOS_COMMAND ;; sleep 2000 ;;
      _write_report device LIG_COMMAND ;; sleep 1000 ;;
      _write_report device CLE_COMMAND ;; sleep 1000 ;;
      _write_report device STP_COMMAND ;; sleep 2000)
      (dev_close device)).

Definition connect : prog unit :=
  print Looking ;;
  all <- enumerate 0 0 ;;
  let matching_devices :=
    filter (fun d => (vendor_id d =? VENDOR_ID) && (product_id d =? PRODUCT_ID)) all in
  match matching_devices with
  | [] => raise DeviceNotFound
  | _ =>
      print (Found (length matching_devices)) ;;
      for_each matching_devices (fun device =>
        if usage_page device =? USAGE_PAGE then
          if usage device =? 1 then set_self (set_control_path (path device))
          else if usage device =? 2 then set_self (set_event_path (path device))
          else ret tt
        else ret tt) ;;
      self <- get_self ;;
      if negb (path_truthy (_control_path self)) then raise ControlInterfaceNotFound
      else
        send_init ;;
        set_self (set_connected true) ;;
        print ConnectedAndInitialized
  end.

Definition _send_jpeg_to_button (device : list Z) (button_id : Z)
    (jpeg_data : list Z) : prog unit :=
  let size := Z.of_nat (length jpeg_data) in
  header <- lift (bat_header size button_id) ;;
  _write_report device header ;;
  sleep TIMING_BAT_HEADER ;;
  for_each (Py.range 0 (length jpeg_data) DATA_SIZE) (fun i =>
    let chunk := Py.slice jpeg_data i (i + DATA_SIZE) in
    _write_report device chunk ;;
    sleep TIMING_JPEG_CHUNK) ;;
  _write_report device STP_COMMAND ;;
  sleep TIMING_STP_CMD.

Definition set_button_image (button_index : Z) (jpeg_data : list Z) : prog unit :=
  self <- get_self ;;
  if negb (connected self) then raise NotConnected
  else if negb (valid_button_index button_index)
  then raise (InvalidButtonIndex button_index)
  else
    set_self (set_button_images_item button_index jpeg_data) ;;
    button_id <- lift (_map_button_for_image button_index) ;;
    with_control_lock (
      device <- _open_control ;;
      try_finally (_send_jpeg_to_button device button_id jpeg_data)
                  (dev_close device)).

Definition set_multiple_images (images : list (Z * list Z)) : prog unit :=
  self <- get_self ;;
  if negb (connected self) then raise NotConnected
  else
    with_control_lock (
      device <- _open_control ;;
      try_finally (
        for_each (py_enumerate images) (fun '(idx, (button_index, jpeg_data)) =>
          if negb (valid_button_index button_index)
          then print (Skipping button_index)
          else
            button_id <- lift (_map_button_for_image button_index) ;;
            _send_jpeg_to_button device button_id jpeg_data ;;
            print (Updated (button_index + 1) (idx + 1) (length images))))
        (dev_close device)).

(** The part of [read_button_event] inside its [try]. *)
Definition read_event_data : prog (option (Z * bool)) :=
  data <- dev_read ;;
  if (length data <? 2)%nat then ret None
  else
    button_index <- lift (Py.getitem data 0) ;;
    state <- lift (Py.getitem data 1) ;;
    ret (Some (button_index, state =? 1)).

Definition read_button_event (event_device : option (list Z))
    : prog (option (Z * bool)) :=
  match event_device with
  | Some _ => read_event_data
  | None =>
      self <- get_self ;;
      if negb (path_truthy (_event_path self)) then ret None
      else
        device <- _open_events ;;
        try_finally read_event_data (dev_close device)
  end.

Definition refresh_images : prog unit :=
  self <- get_self ;;
  if negb (connected self) then ret tt
  else
    with_control_lock (
      device <- _open_control ;;
      try_finally (
        self <- get_self ;;
        for_each (Dict.items (_button_images self)) (fun '(button_index, jpeg_data) =>
          button_id <- lift (_map_button_for_image button_index) ;;
          _send_jpeg_to_button device button_id jpeg_data))
        (dev_close device)).

Definition send_keepalive : prog unit :=
  self <- get_self ;;
  if negb (connected self) then ret tt
  else
    with_control_lock (
      device <- _open_control ;;
      try_finally (_write_report device CONNECT_COMMAND) (dev_close device)).

(** What one round of [_keepalive_loop] reads from outside the object:
    whether the k-th test of the stop event inside the resend loop finds it
    set, and the two readings of the clock (microseconds). *)
Record tick : Type := {
  stop_seen : nat -> bool;
  now : Z;
  now_after : Z
}.

(** [for x in l: if self._keepalive_stop.is_set(): break; body x]. *)
Fixpoint for_each_until {X : Type} (stop : nat -> bool) (n : nat) (l : list X)
    (body : X -> prog unit) : prog unit :=
  match l with
  | [] => ret tt
  | x :: l' =>
      if stop n then ret tt
      else body x ;; for_each_until stop (S n) l' body
  end.

(** The body of the [while] of [_keepalive_loop], up to the wait; returns
    the new [last_connect]. *)
Definition keepalive_round (t : tick) (last_connect : Z) : prog Z :=
  self <- get_self ;;
  cached <- (if connected self
             then self' <- get_self ;; ret (Dict.truthy (_button_images self'))
             else ret false) ;;
  if cached : bool then
    try_except (
      with_control_lock (
        device <- _open_control ;;
        try_finally (
          self <- get_self ;;
          for_each_until (stop_seen t) 0 (Dict.items (_button_images self))
            (fun '(button_index, jpeg_data) =>
               button_id <- lift (_map_button_for_image button_index) ;;
               _send_jpeg_to_button device button_id jpeg_data) ;;
          if CONNECT_INTERVAL <=? now t - last_connect then
            _write_report device CONNECT_COMMAND ;;
            ret (now_after t)
          else ret last_connect)
          (dev_close device)))
      is_Exception (fun _ => ret last_connect)
  else ret last_connect.

(** [_keepalive_loop]: one round per tick; the stop event is found set at
    the head of the loop when the ticks are used up. *)
Fixpoint keepalive_rounds (ticks : list tick) (last_connect : Z) : prog unit :=
  match ticks with
  | [] => ret tt
  | t :: rest =>
      last_connect' <- keepalive_round t last_connect ;;
      sleep KEEPALIVE_INTERVAL ;;
      keepalive_rounds rest last_connect'
  end.

Definition _keepalive_loop (start : Z) (ticks : list tick) : prog unit :=
  keepalive_rounds ticks start.

(** ** The event loop of [main] *)

(** What the loop prints for one report of at least two bytes; [None] when
    it prints nothing. *)
Definition main_report_line (data : list Z) : outcome (option line) :=
  obind (Py.getitem data 0) (fun report_id =>
  if report_id =? 0x04 then
    obind (Py.getitem data 10) (fun control_id =>
    obind (Py.getitem data 11) (fun state =>
    if Py.contains BUTTON_ID_MAP control_id then
      obind (Py.index BUTTON_ID_MAP control_id) (fun phys_idx =>
      if state =? 1 then Ok (Some (BUTTON phys_idx true))
      else if state =? 0 then Ok (Some (BUTTON phys_idx false))
      else Ok None)
    else if control_id =? 0x51 then Ok (Some (KNOB_TURN 1 true))
    else if control_id =? 0x50 then Ok (Some (KNOB_TURN 1 false))
    else if control_id =? 0x61 then Ok (Some (KNOB_TURN 2 true))
    else if control_id =? 0x60 then Ok (Some (KNOB_TURN 2 false))
    else if control_id =? 0x91 then Ok (Some (KNOB_TURN 3 true))
    else if control_id =? 0x90 then Ok (Some (KNOB_TURN 3 false))
    else if control_id =? 0x25 then Ok (Some (KNOB_PRESSED 1))
    else if control_id =? 0x30 then Ok (Some (KNOB_PRESSED 2))
    else if control_id =? 0x31 then Ok (Some (KNOB_PRESSED 3))
    else Ok (Some (UNKNOWN control_id state (Py.slice data 0 24)))))
  else if report_id =? 0x01 then
    obind (Py.getitem data 1) (fun key_id =>
    if key_id =? 0 then Ok (Some (RELEASE (Py.slice data 0 6)))
    else Ok (Some (PRESS key_id (Py.slice data 0 6))))
  else Ok (Some (RPT report_id (Py.slice data 0 24)))).

Definition is_RELEASE (l : option line) : bool :=
  match l with Some (RELEASE _) => true | _ => false end.

(** One turn of the [while True] of [main]: read, skip a timeout or a short
    read, print, and re-send the cached images after a release. *)
Definition main_loop_body : prog unit :=
  data <- dev_read ;;
  if (length data <? 2)%nat then ret tt
  else
    l <- lift (main_report_line data) ;;
    match l with
    | None => ret tt
    | Some text =>
        print text ;;
        if is_RELEASE l then
          try_except refresh_images is_Exception (fun e => print (RefreshFailed e))
        else ret tt
    end.

(** ** Running a program on its own *)

(** What a program does to the outside world. *)
Inductive io : Type :=
| IoAcquire
| IoRelease
| IoOpen (p : list Z)
| IoOpenFail (p : list Z)
| IoClose (p : list Z)
| IoWrite (packet : list Z)
| IoWriteFail (packet : list Z)
| IoRead (data : list Z)
| IoSleep (us : Z)
| IoPrint (l : line).

Record world : Type := {
  self : K1Pro;
  opens : nat;    (* open attempts made so far *)
  writes : nat;   (* writes attempted so far *)
  reads : nat     (* reads made so far *)
}.

Definition with_self (f : K1Pro -> K1Pro) (w : world) : world :=
  {| self := f (self w); opens := opens w; writes := writes w; reads := reads w |}.
Definition count_open (w : world) : world :=
  {| self := self w; opens := S (opens w); writes := writes w; reads := reads w |}.
Definition count_write (w : world) : world :=
  {| self := self w; opens := opens w; writes := S (writes w); reads := reads w |}.
Definition count_read (w : world) : world :=
  {| self := self w; opens := opens w; writes := writes w; reads := S (reads w) |}.

Record result (A : Type) : Type := {
  value : outcome A;
  final : world;
  emitted : list io
}.
Arguments value {A} r.
Arguments final {A} r.
Arguments emitted {A} r.

Definition emit {A : Type} (e : io) (r : result A) : result A :=
  {| value := value r; final := final r; emitted := e :: emitted r |}.

(** One thread, lock free at the start: no action ever waits. *)
Fixpoint run (t : transport) {A : Type} (p : prog A) (w : world) : result A :=
  match p with
  | Ret r => {| value := r; final := w; emitted := [] |}
  | GetSelf k => run t (k (self w)) w
  | SetSelf f k => run t k (with_self f w)
  | HidEnumerate vid pid k => run t (k (hid_enumerate t vid pid)) w
  | LockAcquire k => emit IoAcquire (run t k w)
  | LockRelease k => emit IoRelease (run t k w)
  | OpenPath p k =>
      let ok := open_ok t (opens w) in
      emit (if ok then IoOpen p else IoOpenFail p) (run t (k ok) (count_open w))
  | DevClose p k => emit (IoClose p) (run t k w)
  | DevWrite packet k =>
      let ok := write_ok t (writes w) in
      emit (if ok then IoWrite packet else IoWriteFail packet)
           (run t (k ok) (count_write w))
  | DevRead k =>
      let data := read_data t (reads w) in
      emit (IoRead data) (run t (k data) (count_read w))
  | Sleep us k => emit (IoSleep us) (run t k w)
  | PrintLine l k => emit (IoPrint l) (run t k w)
  end.

(** The packets the transport accepted, the ones it refused, and the lock
    acquisitions among some actions. *)
Definition written (tr : list io) : list (list Z) :=
  flat_map (fun e => match e with IoWrite p => [p] | _ => [] end) tr.
Definition refused (tr : list io) : list (list Z) :=
  flat_map (fun e => match e with IoWriteFail p => [p] | _ => [] end) tr.
Definition attempted (tr : list io) : list (list Z) :=
  flat_map (fun e => match e with IoWrite p | IoWriteFail p => [p] | _ => [] end) tr.
Definition acquisitions (tr : list io) : nat :=
  length (filter (fun e => match e with IoAcquire => true | _ => false end) tr).
Definition printed (tr : list io) : list line :=
  flat_map (fun e => match e with IoPrint l => [l] | _ => [] end) tr.


(** A driver object in a world where nothing has been opened, written or
    read yet. *)
Definition world_of (s : K1Pro) : world :=
  {| self := s; opens := 0; writes := 0; reads := 0 |}.

(** A connected driver object with an empty image cache. *)
Definition connected_deck : K1Pro :=
  {| connected := true; _control_path := Some [1]; _event_path := None;
     _button_images := [] |}.

(** What is enumerated when only the control interface of the device is
    there. *)
Definition control_only : list hid_info :=
  [{| vendor_id := VENDOR_ID; product_id := PRODUCT_ID;
      usage_page := USAGE_PAGE; usage := 1; path := [1] |}].

(** A transport that refuses the [k]-th write only. *)
Definition refusing_write (k : nat) : transport :=
  {| devices := []; open_ok := fun _ => true;
     write_ok := fun n => negb (n =? k)%nat; read_data := fun _ => [] |}.

(** A transport on which every open and every write succeeds and every read
    times out. *)
Definition always_ok (devs : list hid_info) : transport :=
  {| devices := devs; open_ok := fun _ => true; write_ok := fun _ => true;
     read_data := fun _ => [] |}.

(** ** Several threads under the control lock *)

(** The calls a caller's thread makes on the driver. *)
Inductive call : Type :=
| CallConnect
| CallSendInit
| CallSetButtonImage (button_index : Z) (jpeg_data : list Z)
| CallSetMultipleImages (images : list (Z * list Z))
| CallRefreshImages
| CallSendKeepalive.

Definition perform (c : call) : prog unit :=
  match c with
  | CallConnect => connect
  | CallSendInit => send_init
  | CallSetButtonImage button_index jpeg_data => set_button_image button_index jpeg_data
  | CallSetMultipleImages images => set_multiple_images images
  | CallRefreshImages => refresh_images
  | CallSendKeepalive => send_keepalive
  end.


(** The object and the transport counters shared by the threads, the thread
    that took [_control_lock] last when it is locked, what is left to do of
    each thread, and the actions so far with the thread that made each. *)
Record config : Type := {
  mem : world;
  lock : option nat;
  threads : list (prog unit);
  log : list (nat * io)
}.

(** The next atomic action of a thread: the rest of its program, the shared
    state and the lock after it, and what the outside world sees of it.
    [None] when the thread has ended, when it waits for the lock, and for the
    release of an unlocked lock, which a [with] block never does. *)
Definition act (t : transport) (i : nat) (p : prog unit) (w : world)
    (lk : option nat) : option (prog unit * world * option nat * list io) :=
  match p with
  | Ret _ => None
  | GetSelf k => Some (k (self w), w, lk, [])
  | SetSelf f k => Some (k, with_self f w, lk, [])
  | HidEnumerate vid pid k => Some (k (hid_enumerate t vid pid), w, lk, [])
  | LockAcquire k =>
      match lk with
      | None => Some (k, w, Some i, [IoAcquire])
      | Some _ => None
      end
  | LockRelease k =>
      match lk with
      | Some _ => Some (k, w, None, [IoRelease])
      | None => None
      end
  | OpenPath p k =>
      let ok := open_ok t (opens w) in
      Some (k ok, count_open w, lk, [if ok then IoOpen p else IoOpenFail p])
  | DevClose p k => Some (k, w, lk, [IoClose p])
  | DevWrite packet k =>
      let ok := write_ok t (writes w) in
      Some (k ok, count_write w, lk, [if ok then IoWrite packet else IoWriteFail packet])
  | DevRead k =>
      let data := read_data t (reads w) in
      Some (k data, count_read w, lk, [IoRead data])
  | Sleep us k => Some (k, w, lk, [IoSleep us])
  | PrintLine l k => Some (k, w, lk, [IoPrint l])
  end.

Fixpoint set_thread (ts : list (prog unit)) (i : nat) (p : prog unit)
    : list (prog unit) :=
  match ts, i with
  | [], _ => []
  | _ :: ts', O => p :: ts'
  | q :: ts', S i' => q :: set_thread ts' i' p
  end.

(** Any thread that can act may be the next to act. *)
Inductive step (t : transport) : config -> config -> Prop :=
| step_thread (c : config) (i : nat) (p p' : prog unit) (w' : world)
    (lk' : option nat) (es : list io) :
    nth_error (threads c) i = Some p ->
    act t i p (mem c) (lock c) = Some (p', w', lk', es) ->
    step t c {| mem := w'; lock := lk'; threads := set_thread (threads c) i p';
                log := log c ++ map (pair i) es |}.













(** ** Reading a program without running it *)

(** The actions a program is made of. *)
Inductive node : Type :=
| NGetSelf
| NSetSelf (f : K1Pro -> K1Pro)
| NEnumerate
| NAcquire
| NRelease
| NOpen (p : list Z)
| NClose (p : list Z)
| NWrite (packet : list Z)
| NRead
| NSleep (us : Z)
| NPrint (l : line).

(** Every action of the program, on every path through it, is [ok]. *)
Fixpoint all_nodes {A : Type} (ok : node -> Prop) (p : prog A) : Prop :=
  match p with
  | Ret _ => True
  | GetSelf k => ok NGetSelf /\ forall s, all_nodes ok (k s)
  | SetSelf f k => ok (NSetSelf f) /\ all_nodes ok k
  | HidEnumerate _ _ k => ok NEnumerate /\ forall l, all_nodes ok (k l)
  | LockAcquire k => ok NAcquire /\ all_nodes ok k
  | LockRelease k => ok NRelease /\ all_nodes ok k
  | OpenPath p k => ok (NOpen p) /\ forall b, all_nodes ok (k b)
  | DevClose p k => ok (NClose p) /\ all_nodes ok k
  | DevWrite packet k => ok (NWrite packet) /\ forall b, all_nodes ok (k b)
  | DevRead k => ok NRead /\ forall d, all_nodes ok (k d)
  | Sleep us k => ok (NSleep us) /\ all_nodes ok k
  | PrintLine l k => ok (NPrint l) /\ all_nodes ok k
  end.

(** Every way the program can end is [ok]. *)
Fixpoint all_ends {A : Type} (ok : outcome A -> Prop) (p : prog A) : Prop :=
  match p with
  | Ret r => ok r
  | GetSelf k => forall s, all_ends ok (k s)
  | SetSelf _ k => all_ends ok k
  | HidEnumerate _ _ k => forall l, all_ends ok (k l)
  | LockAcquire k => all_ends ok k
  | LockRelease k => all_ends ok k
  | OpenPath _ k => forall b, all_ends ok (k b)
  | DevClose _ k => all_ends ok k
  | DevWrite _ k => forall b, all_ends ok (k b)
  | DevRead k => forall d, all_ends ok (k d)
  | Sleep _ k => all_ends ok k
  | PrintLine _ k => all_ends ok k
  end.

Definition is_write (n : node) : Prop :=
  match n with NWrite _ => True | _ => False end.
Definition is_lock (n : node) : Prop :=
  match n with NAcquire | NRelease => True | _ => False end.

(** No assignment touches [_button_images]. *)
Definition keeps_cache (n : node) : Prop :=
  match n with
  | NSetSelf f => forall s, _button_images (f s) = _button_images s
  | _ => True
  end.

Definition no_write {A : Type} (p : prog A) : Prop :=
  all_nodes (fun n => ~ is_write n) p.
Definition no_lock {A : Type} (p : prog A) : Prop :=
  all_nodes (fun n => ~ is_lock n) p.
Definition cache_untouched {A : Type} (p : prog A) : Prop :=
  all_nodes keeps_cache p.

(** A refused write aborts: what follows it writes nothing more and ends in
    the OSError of the write. *)
Fixpoint fail_stop {A : Type} (p : prog A) : Prop :=
  match p with
  | Ret _ => True
  | GetSelf k => forall s, fail_stop (k s)
  | SetSelf _ k => fail_stop k
  | HidEnumerate _ _ k => forall l, fail_stop (k l)
  | LockAcquire k => fail_stop k
  | LockRelease k => fail_stop k
  | OpenPath _ k => forall b, fail_stop (k b)
  | DevClose _ k => fail_stop k
  | DevWrite _ k =>
      (no_write (k false) /\ all_ends (fun r => r = Raise OSError) (k false))
      /\ fail_stop (k true)
  | DevRead k => forall d, fail_stop (k d)
  | Sleep _ k => fail_stop k
  | PrintLine _ k => fail_stop k
  end.

(** The result of one program followed by another. *)
Definition and_then {A B : Type} (r1 : result A) (r2 : result B) : result B :=
  {| value := value r2; final := final r2; emitted := emitted r1 ++ emitted r2 |}.

(** The packet of a payload that fits: report id, payload, zero padding. *)
Definition padded (payload : list Z) : list Z :=
  REPORT_ID :: payload ++ repeat 0 (DATA_SIZE - length payload).

(** ** Vocabulary of the further properties *)

(** The packets one upload of a buffer to a slot writes when nothing is
    refused: header, chunks, stop command. *)
Definition upload_packets (button_index : Z) (jpeg_data : list Z) : list (list Z) :=
  match _map_button_for_image button_index with
  | Ok button_id =>
      match bat_header (Z.of_nat (length jpeg_data)) button_id with
      | Ok header => map padded (header :: jpeg_chunks jpeg_data ++ [STP_COMMAND])
      | Raise _ => []
      end
  | Raise _ => []
  end.

(** The keys of the cache are slots, each at most once. *)
Definition cache_wf (d : Dict.t) : Prop :=
  NoDup (map fst d) /\ Forall (fun k => 0 <= k < 6) (map fst d).

(** Devices opened and closed among some actions. *)
Definition opened (tr : list io) : nat :=
  length (filter (fun e => match e with IoOpen _ => true | _ => false end) tr).
Definition closed (tr : list io) : nat :=
  length (filter (fun e => match e with IoClose _ => true | _ => false end) tr).

(** The items a loop with [break] on the stop event gets to. *)
Fixpoint until_stop {X : Type} (stop : nat -> bool) (n : nat) (l : list X) : list X :=
  match l with
  | [] => []
  | x :: l' => if stop n then [] else x :: until_stop stop (S n) l'
  end.

(** The devices open after some actions, the one opened last first, starting
    from [s]; [None] when a device is closed that is not the one opened last,
    or a packet is written while no device is open. *)
Fixpoint device_use (s : list (list Z)) (tr : list io) : option (list (list Z)) :=
  match tr with
  | [] => Some s
  | IoOpen p :: tr' => device_use (p :: s) tr'
  | IoClose p :: tr' =>
      match s with
      | q :: s' => if list_eq_dec Z.eq_dec p q then device_use s' tr' else None
      | [] => None
      end
  | IoWrite _ :: tr' | IoWriteFail _ :: tr' =>
      match s with
      | [] => None
      | _ :: _ => device_use s tr'
      end
  | _ :: tr' => device_use s tr'
  end.

(** The same read off the program: with the devices [s] open it closes only
    the device opened last and writes only while a device is open, and it
    ends with result [r] and devices [s1] open only if [post r s1]. *)
Fixpoint device_safe {A : Type} (s : list (list Z)) (p : prog A)
    (post : outcome A -> list (list Z) -> Prop) : Prop :=
  match p with
  | Ret r => post r s
  | GetSelf k => forall x, device_safe s (k x) post
  | SetSelf _ k => device_safe s k post
  | HidEnumerate _ _ k => forall l, device_safe s (k l) post
  | LockAcquire k => device_safe s k post
  | LockRelease k => device_safe s k post
  | OpenPath q k => device_safe (q :: s) (k true) post /\ device_safe s (k false) post
  | DevClose q k => exists s', s = q :: s' /\ device_safe s' k post
  | DevWrite _ k => s <> [] /\ forall b, device_safe s (k b) post
  | DevRead k => forall d, device_safe s (k d) post
  | Sleep _ k => device_safe s k post
  | PrintLine _ k => device_safe s k post
  end.

(** The program leaves open what was open: it has closed what it opened. *)
Definition tidy {A : Type} (s : list (list Z)) (p : prog A) : Prop :=
  device_safe s p (fun _ s1 => s1 = s).

(** The program opens one device and returns it, or raises with none opened. *)
Definition opens_device (s : list (list Z)) (p : prog (list Z)) : Prop :=
  device_safe s p (fun r s1 => match r with
                               | Ok d => s1 = d :: s
                               | Raise _ => s1 = s
                               end).

(** A packet as the device expects it: [WRITE_SIZE] bytes, the report id
    first. *)
Definition well_framed (packet : list Z) : Prop :=
  length packet = WRITE_SIZE /\ hd_error packet = Some REPORT_ID.

(** Every packet the program hands to the transport is well framed. *)
Definition frames_packets {A : Type} (p : prog A) : Prop :=
  all_nodes (fun n => match n with NWrite packet => well_framed packet | _ => True end) p.


(** A connected driver with the given image cache. *)
Definition cached_deck (d : Dict.t) : K1Pro :=
  {| connected := true; _control_path := Some [1]; _event_path := None;
     _button_images := d |}.

(** A transport that refuses the first [k] open attempts. *)
Definition busy_opens (k : nat) : transport :=
  {| devices := []; open_ok := fun n => (k <=? n)%nat;
     write_ok := fun _ => true; read_data := fun _ => [] |}.

(** A transport whose every read gives [data]. *)
Definition reading (data : list Z) : transport :=
  {| devices := []; open_ok := fun _ => true; write_ok := fun _ => true;
     read_data := fun _ => data |}.

(** * Properties *)

(** ** Python sequences *)

Section Sequences.

Local Open Scope nat_scope.

Lemma skipn_repeat_zero (n k : nat) :
  skipn k (repeat 0%Z n) = repeat 0%Z (n - k).
Proof.
  revert k; induction n as [|n IH]; intros [|k]; simpl; auto.
Qed.

Lemma slice_length {A : Type} (l : list A) (lo hi : nat) :
  length (Py.slice l lo hi) = Nat.min (hi - lo) (length l - lo).
Proof.
  unfold Py.slice. now rewrite length_firstn, length_skipn.
Qed.

(** Cutting [step] items at [i] and going on at [i + step] loses nothing. *)
Lemma slice_then_rest {A : Type} (l : list A) (i step : nat) :
  Py.slice l i (i + step) ++ skipn (i + step) l = skipn i l.
Proof.
  unfold Py.slice.
  replace (i + step - i) with step by lia.
  rewrite Nat.add_comm, <- skipn_skipn.
  apply firstn_skipn.
Qed.

Variable step : nat.
Hypothesis step_pos : 0 < step.

(** With enough fuel the indices are [i], [i + step], ... below [stop]. *)
Lemma range_from_unfold (fuel i stop : nat) :
  stop - i <= fuel ->
  Py.range_from fuel i stop step =
  if i <? stop then i :: Py.range_from (fuel - 1) (i + step) stop step else [].
Proof.
  intros Hfuel. destruct fuel as [|fuel]; simpl.
  - destruct (Nat.ltb_spec i stop); [lia | reflexivity].
  - now rewrite Nat.sub_0_r.
Qed.

Lemma range_from_length (fuel i stop : nat) :
  stop - i <= fuel ->
  length (Py.range_from fuel i stop step) = (stop - i + (step - 1)) / step.
Proof.
  revert i; induction fuel as [|fuel IH]; intros i Hfuel.
  - simpl. symmetry. apply Nat.div_small. lia.
  - simpl. destruct (Nat.ltb_spec i stop) as [Hlt|Hge].
    + simpl. rewrite IH by lia.
      destruct (Nat.le_gt_cases (i + step) stop) as [Hfull|Hpart].
      * replace (stop - i + (step - 1)) with (stop - (i + step) + (step - 1) + 1 * step) by lia.
        rewrite Nat.div_add by lia. lia.
      * replace (stop - (i + step)) with 0 by lia.
        rewrite (Nat.div_small (0 + (step - 1))) by lia.
        apply (Nat.div_unique _ _ 1 (stop - i - 1)); lia.
    + simpl. symmetry. apply Nat.div_small. lia.
Qed.

Lemma range_from_nth (fuel i stop k : nat) :
  stop - i <= fuel ->
  k < length (Py.range_from fuel i stop step) ->
  nth k (Py.range_from fuel i stop step) 0 = i + k * step
  /\ i + k * step < stop.
Proof.
  revert i k; induction fuel as [|fuel IH]; intros i k Hfuel Hk.
  - simpl in Hk. lia.
  - simpl in *. destruct (Nat.ltb_spec i stop) as [Hlt|Hge]; simpl in Hk; [|lia].
    destruct k as [|k]; simpl.
    + lia.
    + destruct (IH (i + step) k) as [Hn Hb]; [lia | lia |].
      rewrite Hn. lia.
Qed.

Lemma range_from_concat {A : Type} (l : list A) (fuel i : nat) :
  length l - i <= fuel ->
  concat (map (fun j => Py.slice l j (j + step))
              (Py.range_from fuel i (length l) step)) = skipn i l.
Proof.
  revert i; induction fuel as [|fuel IH]; intros i Hfuel.
  - simpl. symmetry. apply skipn_all2. lia.
  - simpl. destruct (Nat.ltb_spec i (length l)) as [Hlt|Hge].
    + simpl. rewrite IH by lia. apply slice_then_rest.
    + simpl. symmetry. apply skipn_all2. lia.
Qed.

End Sequences.

Lemma DATA_SIZE_pos : (0 < DATA_SIZE)%nat.
Proof. unfold DATA_SIZE. lia. Qed.

Lemma jpeg_chunks_length (jpeg_data : list Z) :
  length (jpeg_chunks jpeg_data)
  = ((length jpeg_data + (DATA_SIZE - 1)) / DATA_SIZE)%nat.
Proof.
  unfold jpeg_chunks, Py.range. rewrite length_map.
  rewrite (range_from_length DATA_SIZE DATA_SIZE_pos) by lia.
  now rewrite Nat.sub_0_r.
Qed.

Lemma jpeg_chunks_nth (jpeg_data : list Z) (k : nat) :
  (k < length (jpeg_chunks jpeg_data))%nat ->
  nth k (jpeg_chunks jpeg_data) []
  = Py.slice jpeg_data (k * DATA_SIZE) (k * DATA_SIZE + DATA_SIZE)
  /\ (k * DATA_SIZE < length jpeg_data)%nat.
Proof.
  unfold jpeg_chunks, Py.range. rewrite length_map. intros Hk.
  destruct (range_from_nth DATA_SIZE DATA_SIZE_pos (length jpeg_data - 0) 0
              (length jpeg_data) k) as [Hn Hb]; [lia | exact Hk |].
  split; [| exact Hb].
  rewrite nth_indep with (d' := Py.slice jpeg_data 0 (0 + DATA_SIZE))
    by (now rewrite length_map).
  rewrite (map_nth (fun i => Py.slice jpeg_data i (i + DATA_SIZE))).
  now rewrite Hn.
Qed.

(** ** Frame codec *)

Lemma bytearray_setitem_ok (b : list Z) (i : nat) (v : Z) :
  0 <= v < 256 -> (i < length b)%nat ->
  Py.bytearray_setitem b i v = Ok (firstn i b ++ v :: skipn (S i) b).
Proof.
  intros Hv Hi. unfold Py.bytearray_setitem.
  replace ((0 <=? v) && (v <? 256)) with true
    by (symmetry; apply andb_true_iff; split; [apply Z.leb_le | apply Z.ltb_lt]; lia).
  now apply Nat.ltb_lt in Hi as ->.
Qed.

Lemma low_byte (n : Z) : Z.land n 0xFF = n mod 256.
Proof. change 0xFF with (Z.ones 8). now rewrite Z.land_ones by lia. Qed.

Lemma high_byte (n : Z) : Z.land (Z.shiftr n 8) 0xFF = (n / 256) mod 256.
Proof. now rewrite low_byte, Z.shiftr_div_pow2 by lia. Qed.

(** The header for any size: the two size bytes are the low 16 bits. *)
Lemma bat_header_bytes (size button_id : Z) :
  0 <= button_id < 256 ->
  bat_header size button_id
  = Ok (BAT_PREFIX ++ [(size / 256) mod 256; size mod 256; button_id]).
Proof.
  intros Hid. unfold bat_header. rewrite high_byte, low_byte.
  assert (Hhi : 0 <= (size / 256) mod 256 < 256) by (apply Z.mod_pos_bound; lia).
  assert (Hlo : 0 <= size mod 256 < 256) by (apply Z.mod_pos_bound; lia).
  set (hi := (size / 256) mod 256) in *. set (lo := size mod 256) in *.
  rewrite bytearray_setitem_ok by (auto; simpl; lia). simpl obind.
  rewrite bytearray_setitem_ok by (auto; simpl; lia). simpl obind.
  rewrite bytearray_setitem_ok by (auto; simpl; lia).
  reflexivity.
Qed.

(** The packet of any payload: nothing is rejected, and a payload longer
    than [DATA_SIZE] makes the packet longer than [WRITE_SIZE]. *)
Lemma report_packet_padded (payload : list Z) :
  report_packet payload = Ok (padded payload).
Proof.
  unfold report_packet, padded.
  change WRITE_SIZE with (S DATA_SIZE).
  rewrite bytearray_setitem_ok by (unfold REPORT_ID; simpl; lia).
  cbn [obind]. f_equal.
  change (firstn 0 (repeat 0 (S DATA_SIZE)) ++ REPORT_ID :: skipn 1 (repeat 0 (S DATA_SIZE)))
    with (REPORT_ID :: repeat 0 DATA_SIZE).
  unfold Py.bytearray_setslice.
  cbn [length]. rewrite repeat_length.
  replace (Nat.min 1 (S DATA_SIZE)) with 1%nat by (unfold DATA_SIZE; lia).
  cbn [firstn app]. f_equal. f_equal.
  destruct (Nat.le_gt_cases (length payload) DATA_SIZE) as [Hfit|Hbig].
  - replace (Nat.max 1 (Nat.min (1 + length payload) (S DATA_SIZE)))
      with (S (length payload)) by lia.
    cbn [skipn]. apply skipn_repeat_zero.
  - replace (Nat.max 1 (Nat.min (1 + length payload) (S DATA_SIZE)))
      with (S DATA_SIZE) by lia.
    cbn [skipn]. rewrite skipn_repeat_zero. f_equal. lia.
Qed.

Lemma padded_length (payload : list Z) :
  length (padded payload) = Nat.max WRITE_SIZE (1 + length payload).
Proof.
  unfold padded. cbn [length]. rewrite length_app, repeat_length.
  change WRITE_SIZE with (S DATA_SIZE). lia.
Qed.

(** ** Running programs *)

Arguments report_packet : simpl never.
Arguments bat_header : simpl never.

Lemma and_then_ret {A B : Type} (r : outcome A) (w : world) (r2 : result B) :
  and_then {| value := r; final := w; emitted := [] |} r2 = r2.
Proof. now destruct r2. Qed.

Lemma run_subst (t : transport) {A B : Type} (p : prog A)
    (f : outcome A -> prog B) (w : world) :
  run t (subst p f) w
  = and_then (run t p w) (run t (f (value (run t p w))) (final (run t p w))).
Proof.
  revert w; induction p as [r|k IH|g k IH|vid pid k IH|k IH|k IH|q k IH|q k IH
                           |packet k IH|k IH|us k IH|l k IH]; intros w; simpl;
    try (now rewrite and_then_ret);
    try (now rewrite IH); now rewrite IH.
Qed.

Lemma run_bind (t : transport) {A B : Type} (p : prog A) (k : A -> prog B) (w : world) :
  run t (bind p k) w
  = match value (run t p w) with
    | Ok a => and_then (run t p w) (run t (k a) (final (run t p w)))
    | Raise e => {| value := Raise e; final := final (run t p w);
                    emitted := emitted (run t p w) |}
    end.
Proof.
  unfold bind. rewrite run_subst.
  destruct (value (run t p w)); [reflexivity |].
  unfold and_then; simpl. now rewrite app_nil_r.
Qed.

Lemma run_try_finally (t : transport) {A : Type} (body : prog A) (fin : prog unit)
    (w : world) :
  run t (try_finally body fin) w
  = let r := run t body w in
    let r' := run t fin (final r) in
    {| value := match value r' with Ok _ => value r | Raise e => Raise e end;
       final := final r'; emitted := emitted r ++ emitted r' |}.
Proof.
  unfold try_finally. rewrite run_subst, run_bind. cbv zeta.
  destruct (value (run t fin (final (run t body w)))); unfold and_then; simpl;
    now rewrite ?app_nil_r.
Qed.

Lemma run_with_control_lock (t : transport) {A : Type} (body : prog A) (w : world) :
  run t (with_control_lock body) w
  = let r := run t body w in
    {| value := value r; final := final r;
       emitted := IoAcquire :: emitted r ++ [IoRelease] |}.
Proof.
  unfold with_control_lock. simpl. rewrite run_try_finally. simpl.
  unfold emit; simpl. reflexivity.
Qed.

Lemma run_write_report (t : transport) (device payload : list Z) (w : world) :
  run t (_write_report device payload) w
  = if write_ok t (writes w)
    then {| value := Ok tt; final := count_write w;
            emitted := [IoWrite (padded payload)] |}
    else {| value := Raise OSError; final := count_write w;
            emitted := [IoWriteFail (padded payload)] |}.
Proof.
  unfold _write_report, lift. rewrite report_packet_padded, run_bind. simpl.
  destruct (write_ok t (writes w)); reflexivity.
Qed.

Lemma written_app (a b : list io) : written (a ++ b) = written a ++ written b.
Proof. apply flat_map_app. Qed.

Lemma attempted_app (a b : list io) : attempted (a ++ b) = attempted a ++ attempted b.
Proof. apply flat_map_app. Qed.

Lemma refused_app (a b : list io) : refused (a ++ b) = refused a ++ refused b.
Proof. apply flat_map_app. Qed.

Lemma printed_app (a b : list io) : printed (a ++ b) = printed a ++ printed b.
Proof. apply flat_map_app. Qed.

Section AcceptingTransport.

Variable t : transport.
Hypothesis accepts : forall n, write_ok t n = true.

Lemma run_write_report_accepted (device payload : list Z) (w : world) :
  run t (_write_report device payload) w
  = {| value := Ok tt; final := count_write w;
       emitted := [IoWrite (padded payload)] |}.
Proof. now rewrite run_write_report, accepts. Qed.

Lemma run_chunk_loop (device jpeg_data : list Z) (idxs : list nat) (w : world) :
  let r := run t (for_each idxs (fun i =>
                    _write_report device (Py.slice jpeg_data i (i + DATA_SIZE)) ;;
                    sleep TIMING_JPEG_CHUNK)) w in
  value r = Ok tt
  /\ written (emitted r)
     = map (fun i => padded (Py.slice jpeg_data i (i + DATA_SIZE))) idxs.
Proof.
  revert w; induction idxs as [|i idxs IH]; intros w; [now split |].
  cbn [for_each]. rewrite run_bind, run_bind, run_write_report_accepted.
  cbn [value final emitted and_then run sleep ret emit].
  destruct (IH (count_write w)) as [Hv Hw]. cbv zeta in Hv, Hw.
  split; [exact Hv |].
  rewrite written_app, Hw. reflexivity.
Qed.

(** What [_send_jpeg_to_button] writes when nothing is refused: the header,
    one packet per chunk in order, the stop command. *)
Lemma run_send_jpeg_accepted (device jpeg_data header : list Z) (button_id : Z)
    (w : world) :
  bat_header (Z.of_nat (length jpeg_data)) button_id = Ok header ->
  let r := run t (_send_jpeg_to_button device button_id jpeg_data) w in
  value r = Ok tt
  /\ written (emitted r)
     = map padded (header :: jpeg_chunks jpeg_data ++ [STP_COMMAND]).
Proof.
  intros Hh. unfold _send_jpeg_to_button. cbv zeta. unfold lift.
  rewrite Hh, run_bind. cbn [run value final emitted and_then].
  rewrite run_bind, run_write_report_accepted.
  cbn [run value final emitted and_then].
  rewrite run_bind. cbn [run value final emitted and_then sleep ret emit].
  rewrite run_bind.
  destruct (run_chunk_loop device jpeg_data
              (Py.range 0 (length jpeg_data) DATA_SIZE) (count_write w)) as [Hv Hw].
  cbv zeta in Hv, Hw. rewrite Hv.
  cbn [run value final emitted and_then].
  rewrite run_bind, run_write_report_accepted.
  cbn [run value final emitted and_then sleep ret emit].
  split; [reflexivity |].
  rewrite !written_app, Hw.
  unfold jpeg_chunks. cbn [map]. rewrite map_app, map_map. reflexivity.
Qed.

End AcceptingTransport.

(** ** The claims on the frame codec *)

(** C4 (as amended).  For every payload, [_write_report] builds the packet
    made of the report id 4, the payload in order and zeros up to 1024 bytes
    in all, and hands it to the transport: a payload of at most 1023 bytes
    gives exactly 1024 bytes; a longer payload is not rejected, its packet is
    the report id followed by the whole payload, 1 + len(payload) bytes. *)
Theorem write_report_packet (t : transport) (device payload : list Z) (w : world) :
  let packet := REPORT_ID :: payload ++ repeat 0 (DATA_SIZE - length payload) in
  report_packet payload = Ok packet
  /\ REPORT_ID = 4
  /\ ((length payload <= DATA_SIZE)%nat -> length packet = WRITE_SIZE)
  /\ ((DATA_SIZE < length payload)%nat ->
      packet = REPORT_ID :: payload /\ length packet = S (length payload))
  /\ attempted (emitted (run t (_write_report device payload) w)) = [packet].
Proof.
  cbv zeta. fold (padded payload). repeat split.
  - apply report_packet_padded.
  - intros Hfit. rewrite padded_length. change WRITE_SIZE with (S DATA_SIZE). lia.
  - unfold padded. replace (DATA_SIZE - length payload)%nat with 0%nat by lia.
    simpl. now rewrite app_nil_r.
  - rewrite padded_length. change WRITE_SIZE with (S DATA_SIZE). lia.
  - rewrite run_write_report. now destruct (write_ok t (writes w)).
Qed.

(** C4, as stated, fails: a payload of 1024 bytes is not rejected; a packet
    of 1025 bytes is built and written. *)
Lemma oversized_payload_is_written :
  report_packet (repeat 7 1024%nat) = Ok (REPORT_ID :: repeat 7 1024%nat)
  /\ run (always_ok []) (_write_report [] (repeat 7 1024%nat)) (world_of __init__)
     = {| value := Ok tt;
          final := count_write (world_of __init__);
          emitted := [IoWrite (REPORT_ID :: repeat 7 1024%nat)] |}
  /\ length (REPORT_ID :: repeat 7 1024%nat) = 1025%nat.
Proof. vm_compute. repeat split. Qed.

(** C5.  The chunk loop of [_send_jpeg_to_button] cuts a buffer of length L
    into ceil(L / 1023) chunks, every chunk but the last of 1023 bytes, the
    last of 1 to 1023 bytes, whose concatenation in order is the buffer; and
    when no write is refused the packets written are the header, these
    chunks in order, and the stop command. *)
Theorem jpeg_chunks_reassemble (jpeg_data : list Z) :
  let chunks := jpeg_chunks jpeg_data in
  DATA_SIZE = 1023%nat
  /\ length chunks = ((length jpeg_data + (DATA_SIZE - 1)) / DATA_SIZE)%nat
  /\ concat chunks = jpeg_data
  /\ (forall k, (S k < length chunks)%nat -> length (nth k chunks []) = DATA_SIZE)
  /\ (forall k, S k = length chunks ->
                (1 <= length (nth k chunks []) <= DATA_SIZE)%nat)
  /\ (forall t device button_id header w,
        (forall n, write_ok t n = true) ->
        bat_header (Z.of_nat (length jpeg_data)) button_id = Ok header ->
        written (emitted (run t (_send_jpeg_to_button device button_id jpeg_data) w))
        = map padded (header :: chunks ++ [STP_COMMAND])).
Proof.
  cbv zeta. split; [reflexivity |]. split; [apply jpeg_chunks_length |].
  split; [| split; [| split]].
  - unfold jpeg_chunks, Py.range.
    rewrite (range_from_concat DATA_SIZE DATA_SIZE_pos jpeg_data) by lia. reflexivity.
  - intros k Hk.
    destruct (jpeg_chunks_nth jpeg_data k) as [-> _]; [lia |].
    destruct (jpeg_chunks_nth jpeg_data (S k)) as [_ Hnext]; [lia |].
    rewrite slice_length. rewrite Nat.mul_succ_l in Hnext. lia.
  - intros k Hk.
    destruct (jpeg_chunks_nth jpeg_data k) as [-> Hlt]; [lia |].
    rewrite slice_length. pose proof DATA_SIZE_pos. lia.
  - intros t device button_id header w Hok Hh.
    now destruct (run_send_jpeg_accepted t Hok device jpeg_data header button_id w Hh).
Qed.

(** C6.  [BUTTON_ID_MAP] is a bijection between the slots 0..5 and the
    protocol IDs 1..6: every slot has a protocol ID in 1..6, distinct slots
    have distinct IDs, every ID in 1..6 is the ID of a slot, the reverse
    lookup of a slot's ID is the slot, and mapping that slot again gives
    the same ID. *)
Theorem button_id_map_bijection :
  (forall s, 0 <= s < 6 ->
     exists p, _map_button_for_image s = Ok p /\ 1 <= p <= 6)
  /\ (forall s s' p, 0 <= s < 6 -> 0 <= s' < 6 ->
        _map_button_for_image s = Ok p -> _map_button_for_image s' = Ok p -> s = s')
  /\ (forall p, 1 <= p <= 6 ->
        exists s, 0 <= s < 6 /\ _map_button_for_image s = Ok p
                  /\ Py.index BUTTON_ID_MAP p = Ok s)
  /\ (forall s p, 0 <= s < 6 -> _map_button_for_image s = Ok p ->
        Py.index BUTTON_ID_MAP p = Ok s)
  /\ (forall s p, 0 <= s < 6 -> _map_button_for_image s = Ok p ->
        obind (Py.index BUTTON_ID_MAP p) _map_button_for_image = Ok p).
Proof.
  assert (Hslot : forall s, 0 <= s < 6 ->
            s = 0 \/ s = 1 \/ s = 2 \/ s = 3 \/ s = 4 \/ s = 5) by (intros; lia).
  assert (Hid : forall p, 1 <= p <= 6 ->
            p = 1 \/ p = 2 \/ p = 3 \/ p = 4 \/ p = 5 \/ p = 6) by (intros; lia).
  repeat split.
  - intros s Hs.
    destruct (Hslot s Hs) as [-> | [-> | [-> | [-> | [-> | ->]]]]];
      [exists 5 | exists 3 | exists 1 | exists 6 | exists 4 | exists 2];
      (split; [reflexivity | lia]).
  - intros s s' p Hs Hs'.
    destruct (Hslot s Hs) as [-> | [-> | [-> | [-> | [-> | ->]]]]];
      destruct (Hslot s' Hs') as [-> | [-> | [-> | [-> | [-> | ->]]]]];
      vm_compute; congruence.
  - intros p Hp.
    destruct (Hid p Hp) as [-> | [-> | [-> | [-> | [-> | ->]]]]];
      [exists 2 | exists 5 | exists 1 | exists 4 | exists 0 | exists 3];
      (split; [lia | split; reflexivity]).
  - intros s p Hs.
    destruct (Hslot s Hs) as [-> | [-> | [-> | [-> | [-> | ->]]]]];
      vm_compute; intros [= <-]; reflexivity.
  - intros s p Hs.
    destruct (Hslot s Hs) as [-> | [-> | [-> | [-> | [-> | ->]]]]];
      vm_compute; intros [= <-]; reflexivity.
Qed.

(** C7.  For a size that fits 16 bits and a protocol ID that fits a byte,
    the header of [_send_jpeg_to_button] is 13 bytes: the 10 bytes
    CRT 00 00 BAT 00 00, the size as a big-endian 16-bit integer, the
    protocol ID. *)
Theorem bat_header_frame (size button_id : Z) :
  0 <= size <= 65535 -> 0 <= button_id <= 255 ->
  bat_header size button_id
  = Ok (BAT_PREFIX ++ [size / 256; size mod 256; button_id])
  /\ length (BAT_PREFIX ++ [size / 256; size mod 256; button_id]) = 13%nat
  /\ BAT_PREFIX = [0x43; 0x52; 0x54; 0x00; 0x00; 0x42; 0x41; 0x54; 0x00; 0x00]
  /\ 0 <= size / 256 < 256 /\ 0 <= size mod 256 < 256
  /\ 256 * (size / 256) + size mod 256 = size.
Proof.
  intros Hsize Hid.
  assert (Hhi : 0 <= size / 256 < 256)
    by (split; [apply Z.div_pos; lia | apply Z.div_lt_upper_bound; lia]).
  repeat split; try lia; try (apply Z.mod_pos_bound; lia).
  - rewrite bat_header_bytes by lia. now rewrite (Z.mod_small (size / 256)).
  - symmetry. apply Z.div_mod. lia.
Qed.

(** The header for 1500 bytes and protocol ID 3 ends in 05 DC 03. *)
Lemma bat_header_1500_3 :
  (0 <= 1500 <= 65535 /\ 0 <= 3 <= 255)
  /\ bat_header 1500 3 = Ok (BAT_PREFIX ++ [0x05; 0xDC; 0x03]).
Proof.
  split; [lia |].
  exact (proj1 (bat_header_frame 1500 3 ltac:(lia) ltac:(lia))).
Defined.

(** ** The claim on event decoding *)

Lemma getitem_nth (l : list Z) (k : nat) (i : Z) :
  i = Z.of_nat k -> (k < length l)%nat -> Py.getitem l i = Ok (nth k l 0).
Proof.
  intros -> Hk. unfold Py.getitem.
  replace ((0 <=? Z.of_nat k) && (Z.of_nat k <? Z.of_nat (length l))) with true
    by (symmetry; apply andb_true_iff; split; [apply Z.leb_le | apply Z.ltb_lt]; lia).
  now rewrite Nat2Z.id.
Qed.

(** What the loop of [main] prints for a control report, from its control
    code and state byte. *)
Lemma main_report_line_control (data : list Z) :
  (12 <= length data)%nat -> nth 0 data 0 = 0x04 ->
  main_report_line data
  = let control_id := nth 10 data 0 in
    let state := nth 11 data 0 in
    if Py.contains BUTTON_ID_MAP control_id then
      obind (Py.index BUTTON_ID_MAP control_id) (fun phys_idx =>
      if state =? 1 then Ok (Some (BUTTON phys_idx true))
      else if state =? 0 then Ok (Some (BUTTON phys_idx false))
      else Ok None)
    else if control_id =? 0x51 then Ok (Some (KNOB_TURN 1 true))
    else if control_id =? 0x50 then Ok (Some (KNOB_TURN 1 false))
    else if control_id =? 0x61 then Ok (Some (KNOB_TURN 2 true))
    else if control_id =? 0x60 then Ok (Some (KNOB_TURN 2 false))
    else if control_id =? 0x91 then Ok (Some (KNOB_TURN 3 true))
    else if control_id =? 0x90 then Ok (Some (KNOB_TURN 3 false))
    else if control_id =? 0x25 then Ok (Some (KNOB_PRESSED 1))
    else if control_id =? 0x30 then Ok (Some (KNOB_PRESSED 2))
    else if control_id =? 0x31 then Ok (Some (KNOB_PRESSED 3))
    else Ok (Some (UNKNOWN control_id state (Py.slice data 0 24))).
Proof.
  intros Hlen Hid. unfold main_report_line.
  rewrite (getitem_nth data 0 0 eq_refl) by lia. cbn [obind]. rewrite Hid. cbn [Z.eqb Pos.eqb].
  rewrite (getitem_nth data 10 10 eq_refl) by lia. cbn [obind].
  rewrite (getitem_nth data 11 11 eq_refl) by lia. reflexivity.
Qed.

(** C3 (as amended).  For a report of at least 12 bytes with report id 4 the
    loop of [main] takes the control code at byte 10 and the state at byte
    11.  When the code is the protocol ID of a slot it prints a button line
    for that slot: pressed for state 1, released for state 0, and nothing
    for any other state.  The codes 0x51/0x50, 0x61/0x60, 0x91/0x90 print a
    clockwise/counter-clockwise turn of knob 1, 2, 3; 0x25, 0x30, 0x31 a
    press of knob 1, 2, 3; any other code prints an unknown line.  For a
    report of at least 2 bytes with report id 1 and byte 1 equal to 0 it
    prints a release line and then re-sends the cached images. *)
Theorem main_report_line_decodes (data : list Z) :
  let control_id := nth 10 data 0 in
  let state := nth 11 data 0 in
  ((12 <= length data)%nat /\ nth 0 data 0 = 0x04 ->
     (forall slot, 0 <= slot < 6 -> _map_button_for_image slot = Ok control_id ->
        main_report_line data
        = Ok (if state =? 1 then Some (BUTTON slot true)
              else if state =? 0 then Some (BUTTON slot false)
              else None))
     /\ (control_id = 0x51 -> main_report_line data = Ok (Some (KNOB_TURN 1 true)))
     /\ (control_id = 0x50 -> main_report_line data = Ok (Some (KNOB_TURN 1 false)))
     /\ (control_id = 0x61 -> main_report_line data = Ok (Some (KNOB_TURN 2 true)))
     /\ (control_id = 0x60 -> main_report_line data = Ok (Some (KNOB_TURN 2 false)))
     /\ (control_id = 0x91 -> main_report_line data = Ok (Some (KNOB_TURN 3 true)))
     /\ (control_id = 0x90 -> main_report_line data = Ok (Some (KNOB_TURN 3 false)))
     /\ (control_id = 0x25 -> main_report_line data = Ok (Some (KNOB_PRESSED 1)))
     /\ (control_id = 0x30 -> main_report_line data = Ok (Some (KNOB_PRESSED 2)))
     /\ (control_id = 0x31 -> main_report_line data = Ok (Some (KNOB_PRESSED 3)))
     /\ (~ 1 <= control_id <= 6 ->
         ~ In control_id [0x51; 0x50; 0x61; 0x60; 0x91; 0x90; 0x25; 0x30; 0x31] ->
         main_report_line data
         = Ok (Some (UNKNOWN control_id state (Py.slice data 0 24)))))
  /\ ((2 <= length data)%nat /\ nth 0 data 0 = 0x01 /\ nth 1 data 0 = 0 ->
        main_report_line data = Ok (Some (RELEASE (Py.slice data 0 6)))
        /\ forall t w, read_data t (reads w) = data ->
             emitted (run t main_loop_body w)
             = IoRead data :: IoPrint (RELEASE (Py.slice data 0 6))
               :: emitted (run t (try_except refresh_images is_Exception
                                    (fun e => print (RefreshFailed e)))
                               (count_read w))).
Proof.
  cbv zeta. split.
  - intros [Hlen Hid]. rewrite (main_report_line_control data Hlen Hid). cbv zeta.
    generalize (nth 10 data 0) (nth 11 data 0) (Py.slice data 0 24).
    intros c s raw. repeat split.
    + intros slot Hs Hc.
      assert (Hslot : slot = 0 \/ slot = 1 \/ slot = 2 \/ slot = 3 \/ slot = 4 \/ slot = 5)
        by lia.
      destruct Hslot as [-> | [-> | [-> | [-> | [-> | ->]]]]];
        injection Hc as <-; cbn [Py.contains existsb BUTTON_ID_MAP Z.eqb Pos.eqb orb];
        cbn [Py.index Py.index_from BUTTON_ID_MAP Z.eqb Pos.eqb Z.add Pos.add obind];
        destruct (s =? 1); [reflexivity | destruct (s =? 0); reflexivity
                           | reflexivity | destruct (s =? 0); reflexivity
                           | reflexivity | destruct (s =? 0); reflexivity
                           | reflexivity | destruct (s =? 0); reflexivity
                           | reflexivity | destruct (s =? 0); reflexivity
                           | reflexivity | destruct (s =? 0); reflexivity].
    + intros ->; reflexivity.
    + intros ->; reflexivity.
    + intros ->; reflexivity.
    + intros ->; reflexivity.
    + intros ->; reflexivity.
    + intros ->; reflexivity.
    + intros ->; reflexivity.
    + intros ->; reflexivity.
    + intros ->; reflexivity.
    + intros Hbtn Hknob. simpl in Hknob.
      replace (Py.contains BUTTON_ID_MAP c) with false.
      * repeat match goal with
               | |- context [c =? ?k] =>
                   let E := fresh in
                   destruct (Z.eqb_spec c k) as [E|E]; [exfalso; intuition lia |]
               end.
        reflexivity.
      * symmetry. unfold Py.contains, BUTTON_ID_MAP. cbn [existsb].
        repeat match goal with
               | |- context [c =? ?k] =>
                   let E := fresh in
                   destruct (Z.eqb_spec c k) as [E|E]; [exfalso; lia |]
               end.
        reflexivity.
  - intros (Hlen & Hid & Hkey). split.
    + unfold main_report_line.
      rewrite (getitem_nth data 0 0 eq_refl) by lia. cbn [obind]. rewrite Hid. cbn [Z.eqb Pos.eqb].
      rewrite (getitem_nth data 1 1 eq_refl) by lia. cbn [obind]. now rewrite Hkey.
    + intros t w Hread.
      assert (Hline : main_report_line data = Ok (Some (RELEASE (Py.slice data 0 6)))).
      { unfold main_report_line.
        rewrite (getitem_nth data 0 0 eq_refl) by lia. cbn [obind]. rewrite Hid. cbn [Z.eqb Pos.eqb].
        rewrite (getitem_nth data 1 1 eq_refl) by lia. cbn [obind]. now rewrite Hkey. }
      unfold main_loop_body. cbn [bind subst dev_read ret run emit value final emitted].
      rewrite Hread.
      replace (length data <? 2)%nat with false by (symmetry; apply Nat.ltb_ge; lia).
      unfold lift. rewrite Hline. cbn [subst is_RELEASE].
      unfold print at 1. cbn [subst run emit value final emitted ret]. reflexivity.
Qed.

(** C3, as stated, fails: a report with the protocol ID of slot 0 at byte 10
    and state 2 at byte 11 prints no button line at all. *)
Lemma button_state_2_prints_nothing :
  _map_button_for_image 0 = Ok 5
  /\ main_report_line [0x04; 0; 0; 0; 0; 0; 0; 0; 0; 0; 5; 2] = Ok None.
Proof. split; reflexivity. Qed.

(** The method [read_button_event] itself decodes nothing: it returns byte 0
    (the report id) and whether byte 1 is 1. *)
Lemma read_button_event_is_raw (t : transport) (w : world) (device : list Z) :
  (2 <= length (read_data t (reads w)))%nat ->
  value (run t (read_button_event (Some device)) w)
  = Ok (Some (nth 0 (read_data t (reads w)) 0, nth 1 (read_data t (reads w)) 0 =? 1)).
Proof.
  intros Hlen. unfold read_button_event, read_event_data.
  cbn [bind subst dev_read ret run emit value].
  replace (length (read_data t (reads w)) <? 2)%nat with false
    by (symmetry; apply Nat.ltb_ge; lia).
  unfold lift. rewrite (getitem_nth _ 0 0 eq_refl), (getitem_nth _ 1 1 eq_refl) by lia.
  reflexivity.
Qed.

(** ** Reading programs: how the predicates compose *)

Ltac prog_induction p :=
  induction p as [r|k IH|g k IH|vid pid k IH|k IH|k IH|q k IH|q k IH
                 |packet k IH|k IH|us k IH|l k IH].

Lemma all_nodes_subst_ends {A B : Type} (ok : node -> Prop) (p : prog A)
    (f : outcome A -> prog B) :
  all_nodes ok p -> all_ends (fun r => all_nodes ok (f r)) p ->
  all_nodes ok (subst p f).
Proof.
  prog_induction p; simpl; intros Hp Hf; auto;
    try match type of Hp with
        | _ /\ _ => destruct Hp as [Hn Hp]; split; [exact Hn |]
        end; auto.
Qed.

Lemma all_ends_any {A : Type} (ok : outcome A -> Prop) (p : prog A) :
  (forall r, ok r) -> all_ends ok p.
Proof. intros H. prog_induction p; simpl; auto. Qed.



Lemma all_nodes_subst {A B : Type} (ok : node -> Prop) (p : prog A)
    (f : outcome A -> prog B) :
  all_nodes ok p -> (forall r, all_nodes ok (f r)) -> all_nodes ok (subst p f).
Proof.
  intros Hp Hf. apply all_nodes_subst_ends; [exact Hp |].
  now apply all_ends_any.
Qed.

Lemma all_nodes_bind {A B : Type} (ok : node -> Prop) (p : prog A) (k : A -> prog B) :
  all_nodes ok p -> (forall a, all_nodes ok (k a)) -> all_nodes ok (bind p k).
Proof.
  intros Hp Hk. apply all_nodes_subst; [exact Hp |].
  intros [a|e]; [apply Hk | exact I].
Qed.

Lemma all_nodes_try_finally {A : Type} (ok : node -> Prop) (body : prog A)
    (fin : prog unit) :
  all_nodes ok body -> all_nodes ok fin -> all_nodes ok (try_finally body fin).
Proof.
  intros Hb Hf. apply all_nodes_subst; [exact Hb |].
  intros r. apply all_nodes_bind; [exact Hf | intros; exact I].
Qed.

Lemma all_nodes_try_except {A : Type} (ok : node -> Prop) (body : prog A)
    (handles : exn -> bool) (handler : exn -> prog A) :
  all_nodes ok body -> (forall e, all_nodes ok (handler e)) ->
  all_nodes ok (try_except body handles handler).
Proof.
  intros Hb Hh. apply all_nodes_subst; [exact Hb |].
  intros [a|e]; [exact I |]. destruct (handles e); [apply Hh | exact I].
Qed.

Lemma all_nodes_for_each {X : Type} (ok : node -> Prop) (l : list X)
    (body : X -> prog unit) :
  (forall x, all_nodes ok (body x)) -> all_nodes ok (for_each l body).
Proof.
  intros Hb. induction l as [|x l IH]; [exact I |].
  cbn [for_each]. apply all_nodes_bind; auto.
Qed.

Lemma all_nodes_for_each_until {X : Type} (ok : node -> Prop) (stop : nat -> bool)
    (n : nat) (l : list X) (body : X -> prog unit) :
  (forall x, all_nodes ok (body x)) -> all_nodes ok (for_each_until stop n l body).
Proof.
  intros Hb. revert n; induction l as [|x l IH]; intros n; [exact I |].
  cbn [for_each_until]. destruct (stop n); [exact I |].
  apply all_nodes_bind; auto.
Qed.













(** ** What the predicates say about a run *)

Section Runs.

Variable t : transport.


Lemma run_cache_untouched {A : Type} (p : prog A) (w : world) :
  cache_untouched p ->
  _button_images (self (final (run t p w))) = _button_images (self w).
Proof.
  unfold cache_untouched. revert w.
  prog_induction p; simpl; intros w Hp; auto;
    destruct Hp as [Hn Hp]; try (now rewrite IH by auto).
  rewrite IH by auto. simpl. apply Hn.
Qed.


Lemma run_no_lock {A : Type} (p : prog A) (w : world) :
  no_lock p -> acquisitions (emitted (run t p w)) = 0%nat.
Proof.
  unfold no_lock, acquisitions. revert w.
  prog_induction p; simpl; intros w Hp; auto;
    destruct Hp as [Hn Hp]; try (now apply IH); try (exfalso; now apply Hn).
  - destruct (open_ok t (opens w)); simpl; now apply IH.
  - destruct (write_ok t (writes w)); simpl; now apply IH.
Qed.


End Runs.

(** ** Reading the methods *)

Ltac unfold_methods :=
  unfold connect, send_init, set_button_image, set_multiple_images,
    refresh_images, send_keepalive, keepalive_round, _send_jpeg_to_button,
    _open_control, _open_events, _write_report, read_button_event,
    read_event_data, main_loop_body, get_self, set_self, enumerate, sleep,
    print, dev_close, dev_write, dev_read, open_path, lift, ret, raise,
    max_retries.

(** Walks a program down to its actions; [leaf] settles each action. *)
Ltac nodes leaf :=
  repeat first
    [ progress intros
    | progress cbv beta zeta
    | apply all_nodes_bind
    | apply all_nodes_try_finally
    | apply all_nodes_try_except
    | apply all_nodes_for_each
    | apply all_nodes_for_each_until
    | match goal with
      | |- all_nodes _ (with_control_lock _) => unfold with_control_lock
      | |- all_nodes _ (open_retry _ _) => cbn [open_retry seq]
      | |- all_nodes _ (if ?b then _ else _) => destruct b
      | |- all_nodes _ (match ?x with _ => _ end) => destruct x
      | |- all_nodes _ (Ret _) => exact I
      | |- all_nodes _ _ => progress cbn [all_nodes]
      | |- all_nodes _ _ => progress unfold_methods
      | |- _ /\ _ => split
      | |- _ => solve [leaf]
      end ].

Ltac cache_leaf := simpl; intros; solve [reflexivity | exact I].

Lemma set_multiple_images_cache (images : list (Z * list Z)) :
  cache_untouched (set_multiple_images images).
Proof. unfold cache_untouched. unfold_methods. nodes cache_leaf. Qed.

Lemma connect_cache : cache_untouched connect.
Proof. unfold cache_untouched. unfold_methods. nodes cache_leaf. Qed.

Lemma send_init_cache : cache_untouched send_init.
Proof. unfold cache_untouched. unfold_methods. nodes cache_leaf. Qed.

Lemma refresh_images_cache : cache_untouched refresh_images.
Proof. unfold cache_untouched. unfold_methods. nodes cache_leaf. Qed.

Lemma send_keepalive_cache : cache_untouched send_keepalive.
Proof. unfold cache_untouched. unfold_methods. nodes cache_leaf. Qed.

Lemma keepalive_round_cache (tk : tick) (last_connect : Z) :
  cache_untouched (keepalive_round tk last_connect).
Proof. unfold cache_untouched. unfold_methods. nodes cache_leaf. Qed.

Lemma keepalive_loop_cache (start : Z) (ticks : list tick) :
  cache_untouched (_keepalive_loop start ticks).
Proof.
  unfold _keepalive_loop, cache_untouched.
  revert start; induction ticks as [|tk ticks IH]; intros start; [exact I |].
  cbn [keepalive_rounds]. apply all_nodes_bind; [apply keepalive_round_cache |].
  intros last. apply all_nodes_bind; [unfold sleep, ret; simpl; auto |].
  intros _. apply IH.
Qed.

(** ** The image cache *)



(** C10.  Whatever the list, the transport and the state, the batch upload
    leaves the image cache as it was: no entry is created or overwritten.
    Nor does any other call but the single-slot upload touch it, nor the
    keepalive loop, so what [refresh_images] and the keepalive loop read from
    the cache was put there by [set_button_image]. *)
Theorem set_multiple_images_leaves_cache (t : transport)
    (images : list (Z * list Z)) (w : world) :
  let r := run t (set_multiple_images images) w in
  _button_images (self (final r)) = _button_images (self w)
  /\ (forall k, Dict.get (_button_images (self (final r))) k
                = Dict.get (_button_images (self w)) k)
  /\ (forall c w', (forall i d, c <> CallSetButtonImage i d) ->
        _button_images (self (final (run t (perform c) w')))
        = _button_images (self w'))
  /\ (forall start ticks w',
        _button_images (self (final (run t (_keepalive_loop start ticks) w')))
        = _button_images (self w')).
Proof.
  cbv zeta.
  assert (H : _button_images (self (final (run t (set_multiple_images images) w)))
              = _button_images (self w))
    by apply run_cache_untouched, set_multiple_images_cache.
  split; [exact H |]. split; [intros k; now rewrite H |]. split.
  - intros c w' Hc. apply run_cache_untouched.
    destruct c as [| |i d|imgs| |]; cbn [perform].
    + apply connect_cache.
    + apply send_init_cache.
    + now contradiction (Hc i d).
    + apply set_multiple_images_cache.
    + apply refresh_images_cache.
    + apply send_keepalive_cache.
  - intros start ticks w'. apply run_cache_untouched, keepalive_loop_cache.
Qed.

(** ** A refused write aborts an upload *)

Lemma no_write_fail_stop {A : Type} (p : prog A) : no_write p -> fail_stop p.
Proof.
  unfold no_write. prog_induction p; simpl; intros Hp; auto;
    destruct Hp as [Hn Hp]; auto.
  exfalso. now apply Hn.
Qed.







Lemma valid_button_index_true (button_index : Z) :
  0 <= button_index < 6 -> valid_button_index button_index = true.
Proof.
  intros H. unfold valid_button_index.
  apply andb_true_iff; split; [apply Z.leb_le | apply Z.ltb_lt]; lia.
Qed.

(** A connected driver with a valid slot assigns the cache entry first; what
    it does afterwards leaves the cache alone. *)
Lemma set_button_image_cache (t : transport) (button_index : Z)
    (jpeg_data : list Z) (w : world) :
  connected (self w) = true -> 0 <= button_index < 6 ->
  _button_images (self (final (run t (set_button_image button_index jpeg_data) w)))
  = Dict.set (_button_images (self w)) button_index jpeg_data.
Proof.
  intros Hc Hv. unfold set_button_image.
  rewrite run_bind. cbn [get_self ret run value final emitted and_then].
  rewrite Hc, (valid_button_index_true _ Hv). cbn [negb].
  rewrite run_bind. cbn [set_self ret run value final emitted and_then].
  match goal with
  | |- _button_images (self (final (run t ?p ?w'))) = _ =>
      rewrite (run_cache_untouched t p w')
  end.
  - reflexivity.
  - unfold cache_untouched. unfold_methods. nodes cache_leaf.
Qed.




(** ** The batch upload *)








Lemma map_button_valid (button_index : Z) :
  valid_button_index button_index = true ->
  exists button_id, _map_button_for_image button_index = Ok button_id
                    /\ 1 <= button_id <= 6.
Proof.
  unfold valid_button_index. intros H. apply andb_true_iff in H as [H0 H6].
  apply Z.leb_le in H0. apply Z.ltb_lt in H6.
  assert (Hslot : button_index = 0 \/ button_index = 1 \/ button_index = 2
                  \/ button_index = 3 \/ button_index = 4 \/ button_index = 5) by lia.
  destruct Hslot as [-> | [-> | [-> | [-> | [-> | ->]]]]];
    [exists 5 | exists 3 | exists 1 | exists 6 | exists 4 | exists 2];
    (split; [reflexivity | lia]).
Qed.

Lemma run_open_control_ok (t : transport) (w : world) (p : list Z) :
  _control_path (self w) = Some p -> open_ok t (opens w) = true ->
  run t _open_control w
  = {| value := Ok p; final := count_open w; emitted := [IoOpen p] |}.
Proof.
  intros Hp Hopen. unfold _open_control. rewrite run_bind.
  cbn [get_self ret run value final emitted and_then]. rewrite Hp.
  rewrite run_bind. cbn [ret run value final emitted and_then].
  unfold max_retries. cbn [seq open_retry]. rewrite run_bind.
  unfold try_except. rewrite run_subst, run_bind.
  cbn [open_path ret raise run value final emitted and_then emit]. rewrite Hopen.
  reflexivity.
Qed.

Lemma run_no_print (t : transport) {A : Type} (p : prog A) (w : world) :
  all_nodes (fun n => match n with NPrint _ => False | _ => True end) p ->
  printed (emitted (run t p w)) = [].
Proof.
  revert w. prog_induction p; simpl; intros w Hp; auto;
    destruct Hp as [Hn Hp]; try (now apply IH); try contradiction.
  - destruct (open_ok t (opens w)); simpl; now apply IH.
  - destruct (write_ok t (writes w)); simpl; now apply IH.
Qed.


Lemma run_print (t : transport) (l : line) (w : world) :
  run t (print l) w = {| value := Ok tt; final := w; emitted := [IoPrint l] |}.
Proof. reflexivity. Qed.






(** ** Discovery *)

Lemma hid_enumerate_all (t : transport) : hid_enumerate t 0 0 = devices t.
Proof.
  unfold hid_enumerate.
  change (filter (fun _ : hid_info => true) (devices t) = devices t).
  induction (devices t) as [|d l IH]; [reflexivity |].
  cbn [filter]. now rewrite IH.
Qed.

Lemma find_app {X : Type} (f : X -> bool) (l1 l2 : list X) :
  find f (l1 ++ l2) = match find f l1 with Some x => Some x | None => find f l2 end.
Proof.
  induction l1 as [|x l1 IH]; [reflexivity |].
  cbn [app find]. now destruct (f x).
Qed.

Lemma run_no_assign (t : transport) {A : Type} (p : prog A) (w : world) :
  all_nodes (fun n => match n with NSetSelf _ => False | _ => True end) p ->
  self (final (run t p w)) = self w.
Proof.
  revert w. prog_induction p; simpl; intros w Hp; auto;
    destruct Hp as [Hn Hp]; try (now rewrite IH by auto); try contradiction.
Qed.

(** The loop of [connect] over the matching interfaces: the last interface
    of the usage page with usage 1 gives the control path, the last with
    usage 2 the event path; a path with no such interface stays as it was. *)
Lemma run_connect_paths (t : transport) (l : list hid_info) (w : world) :
  let r := run t (for_each l (fun device =>
             if usage_page device =? USAGE_PAGE then
               if usage device =? 1 then set_self (set_control_path (path device))
               else if usage device =? 2 then set_self (set_event_path (path device))
               else ret tt
             else ret tt)) w in
  value r = Ok tt /\ emitted r = []
  /\ opens (final r) = opens w /\ writes (final r) = writes w
  /\ connected (self (final r)) = connected (self w)
  /\ _control_path (self (final r))
     = match find_endpoint 1 (rev l) with
       | Some d => Some (path d)
       | None => _control_path (self w)
       end
  /\ _event_path (self (final r))
     = match find_endpoint 2 (rev l) with
       | Some d => Some (path d)
       | None => _event_path (self w)
       end.
Proof.
  cbv zeta.
  set (assign := fun device : hid_info =>
         if usage_page device =? USAGE_PAGE then
           if usage device =? 1 then set_self (set_control_path (path device))
           else if usage device =? 2 then set_self (set_event_path (path device))
           else ret tt
         else ret tt).
  revert w. induction l as [|d l IH]; intros w; [now repeat split |].
  cbn [for_each rev]. rewrite run_bind.
  assert (Hd : value (run t (assign d) w) = Ok tt
               /\ emitted (run t (assign d) w) = []
               /\ opens (final (run t (assign d) w)) = opens w
               /\ writes (final (run t (assign d) w)) = writes w
               /\ connected (self (final (run t (assign d) w))) = connected (self w)
               /\ _control_path (self (final (run t (assign d) w)))
                  = (if (usage_page d =? USAGE_PAGE) && (usage d =? 1)
                     then Some (path d) else _control_path (self w))
               /\ _event_path (self (final (run t (assign d) w)))
                  = (if (usage_page d =? USAGE_PAGE) && (usage d =? 2)
                     then Some (path d) else _event_path (self w))).
  { unfold assign. destruct (usage_page d =? USAGE_PAGE); cbn [andb];
      [destruct (Z.eqb_spec (usage d) 1) as [H1|H1];
         [rewrite H1 | destruct (usage d =? 2)] |];
      now repeat split. }
  destruct Hd as (Hv1 & He1 & Ho1 & Hw1 & Hc1 & Hcp1 & Hep1).
  destruct (IH (final (run t (assign d) w))) as (Hv & He & Ho & Hw & Hc & Hcp & Hep).
  rewrite Hv1. cbn [and_then value final emitted].
  rewrite Hv, He, He1, Ho, Ho1, Hw, Hw1, Hc, Hc1, Hcp, Hcp1, Hep, Hep1.
  unfold find_endpoint. rewrite !find_app. cbn [find].
  repeat split.
  - destruct (find _ (rev l)); [reflexivity |].
    now destruct ((usage_page d =? USAGE_PAGE) && (usage d =? 1)).
  - destruct (find _ (rev l)); [reflexivity |].
    now destruct ((usage_page d =? USAGE_PAGE) && (usage d =? 2)).
Qed.

Lemma find_rev_none {X : Type} (f : X -> bool) (l : list X) :
  find f l = None -> find f (rev l) = None.
Proof.
  induction l as [|x l IH]; [reflexivity |].
  cbn [find rev]. destruct (f x) eqn:Hx; [discriminate |].
  intros H. rewrite find_app, (IH H). cbn [find]. now rewrite Hx.
Qed.

Ltac assign_leaf := simpl; solve [exact I | tauto].

(** With the control path known, opening the control device and the init
    sequence assign nothing. *)
Lemma run_open_control_self (t : transport) (w : world) (p : list Z) :
  _control_path (self w) = Some p ->
  self (final (run t _open_control w)) = self w.
Proof.
  intros Hp. unfold _open_control. rewrite run_bind.
  cbn [get_self ret run value final emitted and_then]. rewrite Hp.
  rewrite run_bind. cbn [ret run value final emitted and_then].
  apply run_no_assign. unfold_methods. nodes assign_leaf.
Qed.

Lemma run_send_init_self (t : transport) (w : world) (p : list Z) :
  _control_path (self w) = Some p ->
  self (final (run t send_init w)) = self w.
Proof.
  intros Hp. unfold send_init. rewrite run_with_control_lock. cbv zeta.
  cbn [final]. rewrite run_bind.
  pose proof (run_open_control_self t w p Hp) as Hself.
  destruct (run t _open_control w) as [[device|e] w1 tr1];
    cbn [value final emitted and_then] in *; [| exact Hself].
  rewrite <- Hself. apply run_no_assign. unfold_methods. nodes assign_leaf.
Qed.

Lemma run_send_init_accepted (t : transport) (w : world) (p : list Z) :
  _control_path (self w) = Some p -> open_ok t (opens w) = true ->
  (forall n, write_ok t n = true) ->
  value (run t send_init w) = Ok tt.
Proof.
  intros Hp Hopen Hok. unfold send_init. rewrite run_with_control_lock. cbv zeta.
  cbn [value]. rewrite run_bind, (run_open_control_ok t w p Hp Hopen).
  cbn [value final emitted and_then]. rewrite run_try_finally. cbv zeta.
  cbn [dev_close ret run value final emitted emit].
  repeat (rewrite run_bind, (run_write_report_accepted t Hok);
          cbn [value final emitted and_then];
          rewrite run_bind;
          cbn [sleep ret run value final emitted and_then emit]).
  rewrite run_bind, (run_write_report_accepted t Hok). reflexivity.
Qed.

(** What [connect] does up to the check of the control path. *)
Lemma run_connect (t : transport) (w : world) :
  let matching :=
    filter (fun d => (vendor_id d =? VENDOR_ID) && (product_id d =? PRODUCT_ID))
           (devices t) in
  let assigned := run t (for_each matching (fun device =>
             if usage_page device =? USAGE_PAGE then
               if usage device =? 1 then set_self (set_control_path (path device))
               else if usage device =? 2 then set_self (set_event_path (path device))
               else ret tt
             else ret tt)) w in
  run t connect w
  = match matching with
    | [] => {| value := Raise DeviceNotFound; final := w;
               emitted := [IoPrint Looking] |}
    | _ =>
        if negb (path_truthy (_control_path (self (final assigned))))
        then {| value := Raise ControlInterfaceNotFound; final := final assigned;
                emitted := [IoPrint Looking; IoPrint (Found (length matching))] |}
        else
          let r := run t (send_init ;; set_self (set_connected true) ;;
                          print ConnectedAndInitialized) (final assigned) in
          {| value := value r; final := final r;
             emitted := [IoPrint Looking; IoPrint (Found (length matching))]
                        ++ emitted r |}
    end.
Proof.
  cbv zeta. unfold connect. rewrite run_bind, run_print.
  cbn [value final emitted and_then]. rewrite run_bind.
  cbn [enumerate ret run value final emitted and_then]. rewrite hid_enumerate_all.
  cbv zeta.
  destruct (filter _ (devices t)) as [|d l] eqn:Hm; [reflexivity |].
  rewrite run_bind, run_print. cbn [value final emitted and_then].
  rewrite run_bind.
  destruct (run_connect_paths t (d :: l) w) as (Hv & He & _).
  cbv zeta in Hv, He. rewrite Hv. unfold and_then. cbn [value final emitted app].
  rewrite He, run_bind. cbn [get_self ret run value final emitted and_then app].
  destruct (path_truthy _); cbn [negb]; reflexivity.
Qed.

Lemma path_truthy_some (p : option (list Z)) :
  path_truthy p = true -> exists q, p = Some q /\ q <> [].
Proof.
  destruct p as [[|b q]|]; try discriminate. intros _.
  exists (b :: q). split; [reflexivity | discriminate].
Qed.

(** After the init sequence: connected, and the object otherwise as the
    init sequence left it. *)
Lemma run_connect_tail (t : transport) (w : world) (p : list Z) :
  _control_path (self w) = Some p ->
  let r := run t (send_init ;; set_self (set_connected true) ;;
                  print ConnectedAndInitialized) w in
  value r = value (run t send_init w)
  /\ (value r = Ok tt -> self (final r) = set_connected true (self w)).
Proof.
  intros Hp. cbv zeta. rewrite run_bind.
  pose proof (run_send_init_self t w p Hp) as Hself.
  destruct (run t send_init w) as [[[]|e] w1 tr1];
    cbn [value final emitted and_then] in *.
  - rewrite run_bind. cbn [set_self ret run value final emitted and_then].
    rewrite run_print. cbn [value final and_then with_self self].
    split; [reflexivity |]. intros _. now rewrite Hself.
  - split; [reflexivity | discriminate].
Qed.

(** C8 (as amended).  [connect] fails with DeviceNotFound when no interface
    has the vendor and product id; it fails with ControlInterfaceNotFound
    when, the control path not being known already, no matching interface of
    the usage page has usage 1; when it succeeds the driver is connected and
    the control path is assigned.  The event interface is not required: with
    a control interface and a transport that refuses nothing [connect]
    succeeds, and the event path is that of the last matching interface with
    usage 2, or stays as it was when there is none. *)
Theorem connect_discovery (t : transport) (w : world) :
  let matching :=
    filter (fun d => (vendor_id d =? VENDOR_ID) && (product_id d =? PRODUCT_ID))
           (devices t) in
  let r := run t connect w in
  (matching = [] ->
     value r = Raise DeviceNotFound /\ self (final r) = self w
     /\ attempted (emitted r) = [])
  /\ (matching <> [] -> _control_path (self w) = None ->
      find_endpoint 1 matching = None ->
      value r = Raise ControlInterfaceNotFound
      /\ connected (self (final r)) = connected (self w)
      /\ attempted (emitted r) = [])
  /\ (value r = Ok tt ->
      connected (self (final r)) = true
      /\ path_truthy (_control_path (self (final r))) = true)
  /\ (forall d, find_endpoint 1 (rev matching) = Some d -> path d <> [] ->
      (forall n, open_ok t n = true) -> (forall n, write_ok t n = true) ->
      value r = Ok tt
      /\ connected (self (final r)) = true
      /\ _control_path (self (final r)) = Some (path d)
      /\ _event_path (self (final r))
         = match find_endpoint 2 (rev matching) with
           | Some e => Some (path e)
           | None => _event_path (self w)
           end).
Proof.
  cbv zeta. rewrite run_connect. cbv zeta.
  set (matching := filter _ (devices t)).
  destruct (run_connect_paths t matching w) as (Hv & He & Ho & Hw & Hc & Hcp & Hep).
  cbv zeta in Hv, He, Ho, Hw, Hc, Hcp, Hep.
  set (assigned := run t (for_each matching _) w) in *.
  split; [| split; [| split]].
  - intros ->. now repeat split.
  - intros Hne Hnone Hfind.
    destruct matching as [|d0 l0] eqn:Hm; [contradiction |].
    unfold find_endpoint in Hfind, Hcp.
    rewrite (find_rev_none _ _ Hfind), Hnone in Hcp. rewrite Hcp.
    cbn [path_truthy negb value final emitted]. now repeat split.
  - destruct matching as [|d0 l0] eqn:Hm; [discriminate |].
    destruct (path_truthy (_control_path (self (final assigned)))) eqn:Htruthy;
      cbn [negb value final]; [| discriminate].
    destruct (path_truthy_some _ Htruthy) as (p & Hp & _).
    destruct (run_connect_tail t (final assigned) p Hp) as [_ Hself].
    cbv zeta in Hself. intros Hok. rewrite (Hself Hok).
    cbn [set_connected connected _control_path]. now split.
  - intros d Hd Hpath Hopen Hwrite.
    destruct matching as [|d0 l0] eqn:Hm; [discriminate |].
    rewrite Hd in Hcp. rewrite Hcp.
    assert (Htruthy : path_truthy (Some (path d)) = true)
      by (destruct (path d); [contradiction | reflexivity]).
    rewrite Htruthy. cbn [negb value final].
    destruct (run_connect_tail t (final assigned) (path d) Hcp) as [Hval Hself].
    cbv zeta in Hval, Hself.
    assert (Hinit : value (run t send_init (final assigned)) = Ok tt)
      by (apply run_send_init_accepted with (p := path d); auto).
    rewrite Hinit in Hval. rewrite (Hself Hval).
    cbn [set_connected connected _control_path _event_path].
    now rewrite Hcp, Hep.
Qed.

(** C8, as stated, fails: with the control interface only, [connect]
    succeeds although no interface has usage 2, and the event path is not
    assigned. *)
Lemma connect_without_event_interface :
  find_endpoint 2 control_only = None
  /\ value (run (always_ok control_only) connect (world_of __init__)) = Ok tt
  /\ connected (self (final (run (always_ok control_only) connect
                                 (world_of __init__)))) = true
  /\ _event_path (self (final (run (always_ok control_only) connect
                                   (world_of __init__)))) = None.
Proof. vm_compute. repeat split. Qed.

(** ** The control lock *)




















(** * Further properties of the driver *)

(** ** Opening the endpoints *)

Lemma run_try_except (t : transport) {A : Type} (body : prog A)
    (handles : exn -> bool) (handler : exn -> prog A) (w : world) :
  run t (try_except body handles handler) w
  = match value (run t body w) with
    | Ok a => run t body w
    | Raise e =>
        if handles e
        then and_then (run t body w) (run t (handler e) (final (run t body w)))
        else run t body w
    end.
Proof.
  unfold try_except. rewrite run_subst.
  destruct (run t body w) as [[a|e] w' tr]; cbn [value final emitted run].
  - unfold and_then; cbn [value final emitted]. now rewrite app_nil_r.
  - destruct (handles e); [reflexivity |].
    unfold and_then; cbn [run value final emitted]. now rewrite app_nil_r.
Qed.

Lemma flat_map_const {X Y : Type} (c : list Y) (l l' : list X) :
  length l = length l' ->
  flat_map (fun _ => c) l = flat_map (fun _ => c) l'.
Proof.
  revert l'; induction l as [|x l IH]; intros [|x' l'] H; try discriminate;
    [reflexivity |].
  cbn [flat_map]. f_equal. apply IH. now injection H.
Qed.

(** One round of the retry loop. *)
Lemma run_open_retry_cons (t : transport) (attempt : nat) (rest : list nat)
    (p : list Z) (w : world) :
  run t (open_retry (attempt :: rest) p) w
  = if open_ok t (opens w)
    then {| value := Ok p; final := count_open w; emitted := [IoOpen p] |}
    else if (attempt <? max_retries - 1)%nat
         then emit (IoOpenFail p) (emit (IoSleep 100000)
                (run t (open_retry rest p) (count_open w)))
         else {| value := Raise OpenFailed; final := count_open w;
                 emitted := [IoOpenFail p] |}.
Proof.
  cbn [open_retry]. rewrite run_bind, run_try_except, run_bind.
  cbn [open_path run]. cbv zeta.
  destruct (open_ok t (opens w));
    cbn [ret raise run value final emitted and_then emit is_OSError app];
    [reflexivity |].
  destruct (attempt <? max_retries - 1)%nat.
  - rewrite run_bind. cbn [sleep ret run value final emitted and_then emit app].
    unfold emit. now destruct (run t (open_retry rest p) (count_open w)).
  - reflexivity.
Qed.

(** The k+1-th attempt succeeds after k refused ones. *)
Lemma run_open_retry_succeeds (t : transport) (p : list Z) (k : nat) :
  forall (n a : nat) (w : world),
  (a + n = max_retries)%nat -> (k < n)%nat ->
  (forall j, (j < k)%nat -> open_ok t (j + opens w) = false) ->
  open_ok t (k + opens w) = true ->
  let r := run t (open_retry (seq a n) p) w in
  value r = Ok p /\ self (final r) = self w
  /\ opens (final r) = (S k + opens w)%nat /\ writes (final r) = writes w
  /\ emitted r
     = flat_map (fun _ => [IoOpenFail p; IoSleep 100000]) (seq 0 k) ++ [IoOpen p].
Proof.
  cbv zeta. induction k as [|k IH]; intros n a w Hn Hk Hfail Hok.
  - destruct n as [|n]; [lia |]. cbn [seq]. rewrite run_open_retry_cons.
    cbn [Nat.add] in Hok. rewrite Hok. now repeat split.
  - destruct n as [|n]; [lia |]. cbn [seq]. rewrite run_open_retry_cons.
    pose proof (Hfail 0%nat ltac:(lia)) as H0. cbn [Nat.add] in H0. rewrite H0.
    replace (a <? max_retries - 1)%nat with true
      by (symmetry; apply Nat.ltb_lt; unfold max_retries in *; lia).
    cbn [emit value final emitted].
    destruct (IH n (S a) (count_open w)) as (Hv & Hs & Ho & Hw & He).
    + lia.
    + lia.
    + intros j Hj. cbn [count_open opens]. rewrite Nat.add_succ_r.
      apply (Hfail (S j)). lia.
    + cbn [count_open opens]. now rewrite Nat.add_succ_r.
    + rewrite Hv, Hs, Ho, Hw, He. cbn [count_open opens self writes].
      repeat split; [lia |].
      cbn [seq flat_map app]. do 2 f_equal. f_equal.
      apply flat_map_const. now rewrite !length_seq.
Qed.

(** All attempts are refused: the last one is not followed by a sleep. *)
Lemma run_open_retry_exhausted (t : transport) (p : list Z) :
  forall (n a : nat) (w : world),
  (a + S n = max_retries)%nat ->
  (forall j, (j <= n)%nat -> open_ok t (j + opens w) = false) ->
  let r := run t (open_retry (seq a (S n)) p) w in
  value r = Raise OpenFailed /\ self (final r) = self w
  /\ opens (final r) = (S n + opens w)%nat /\ writes (final r) = writes w
  /\ emitted r
     = flat_map (fun _ => [IoOpenFail p; IoSleep 100000]) (seq 0 n)
       ++ [IoOpenFail p].
Proof.
  cbv zeta. induction n as [|n IH]; intros a w Hn Hfail.
  - cbn [seq]. rewrite run_open_retry_cons.
    pose proof (Hfail 0%nat ltac:(lia)) as H0. cbn [Nat.add] in H0. rewrite H0.
    replace (a <? max_retries - 1)%nat with false
      by (symmetry; apply Nat.ltb_ge; unfold max_retries in *; lia).
    now repeat split.
  - cbn [seq]. rewrite run_open_retry_cons.
    pose proof (Hfail 0%nat ltac:(lia)) as H0. cbn [Nat.add] in H0. rewrite H0.
    replace (a <? max_retries - 1)%nat with true
      by (symmetry; apply Nat.ltb_lt; unfold max_retries in *; lia).
    cbn [emit value final emitted].
    destruct (IH (S a) (count_open w)) as (Hv & Hs & Ho & Hw & He).
    + lia.
    + intros j Hj. cbn [count_open opens]. rewrite Nat.add_succ_r.
      apply (Hfail (S j)). lia.
    + cbn [seq] in Hv, Hs, Ho, Hw, He.
      rewrite Hv, Hs, Ho, Hw, He. cbn [count_open opens self writes].
      repeat split; [lia |].
      cbn [seq flat_map app]. do 2 f_equal. f_equal.
      apply flat_map_const. now rewrite !length_seq.
Qed.

Lemma run_open_control_known (t : transport) (w : world) (p : list Z) :
  _control_path (self w) = Some p ->
  run t _open_control w = run t (open_retry (seq 0 max_retries) p) w.
Proof.
  intros Hp. unfold _open_control. rewrite run_bind.
  cbn [get_self ret run value final emitted and_then]. rewrite Hp.
  rewrite run_bind. cbn [ret run value final emitted].
  apply and_then_ret.
Qed.

(** X1.  With the control path known, [_open_control] absorbs up to four
    refused opens: when the first k attempts (k < 5) are refused and the next
    is accepted, it returns the device after exactly k + 1 attempts, having
    slept 100 ms after each refusal. *)
Theorem open_control_retries (t : transport) (w : world) (p : list Z) (k : nat) :
  _control_path (self w) = Some p ->
  (k < 5)%nat ->
  (forall j, (j < k)%nat -> open_ok t (j + opens w) = false) ->
  open_ok t (k + opens w) = true ->
  let r := run t _open_control w in
  value r = Ok p
  /\ opens (final r) = (S k + opens w)%nat
  /\ self (final r) = self w
  /\ emitted r
     = flat_map (fun _ => [IoOpenFail p; IoSleep 100000]) (seq 0 k) ++ [IoOpen p].
Proof.
  intros Hp Hk Hfail Hok. cbv zeta. rewrite (run_open_control_known t w p Hp).
  destruct (run_open_retry_succeeds t p k max_retries 0 w eq_refl Hk Hfail Hok)
    as (Hv & Hs & Ho & _ & He).
  now repeat split.
Qed.

(** Four refused opens, then the fifth attempt succeeds. *)
Lemma open_control_retries_fifth :
  (_control_path (self (world_of connected_deck)) = Some [1]
   /\ (4 < 5)%nat
   /\ (forall j, (j < 4)%nat ->
         open_ok (busy_opens 4) (j + opens (world_of connected_deck)) = false)
   /\ open_ok (busy_opens 4) (4 + opens (world_of connected_deck)) = true)
  /\ value (run (busy_opens 4) _open_control (world_of connected_deck)) = Ok [1]
  /\ opens (final (run (busy_opens 4) _open_control (world_of connected_deck)))
     = 5%nat.
Proof.
  assert (Hfail : forall j, (j < 4)%nat ->
            open_ok (busy_opens 4) (j + opens (world_of connected_deck)) = false).
  { intros j Hj. destruct j as [|[|[|[|j]]]]; try reflexivity. lia. }
  split; [repeat split; [lia | exact Hfail] |].
  destruct (open_control_retries (busy_opens 4) (world_of connected_deck) [1] 4
              eq_refl ltac:(lia) Hfail eq_refl) as (Hv & Ho & _).
  split; [exact Hv | exact Ho].
Defined.

(** X2.  When five opens in a row are refused, [_open_control] raises
    OpenFailed after exactly five attempts: four sleeps, none after the last
    refusal, and no sixth attempt. *)
Theorem open_control_gives_up (t : transport) (w : world) (p : list Z) :
  _control_path (self w) = Some p ->
  (forall j, (j < 5)%nat -> open_ok t (j + opens w) = false) ->
  let r := run t _open_control w in
  value r = Raise OpenFailed
  /\ opens (final r) = (5 + opens w)%nat
  /\ self (final r) = self w
  /\ emitted r
     = [IoOpenFail p; IoSleep 100000; IoOpenFail p; IoSleep 100000;
        IoOpenFail p; IoSleep 100000; IoOpenFail p; IoSleep 100000;
        IoOpenFail p].
Proof.
  intros Hp Hfail. cbv zeta. rewrite (run_open_control_known t w p Hp).
  destruct (run_open_retry_exhausted t p 4 0 w eq_refl) as (Hv & Hs & Ho & _ & He).
  - intros j Hj. apply Hfail. lia.
  - now repeat split.
Qed.

(** Six opens would be refused; only five are tried. *)
Lemma open_control_gives_up_busy :
  (_control_path (self (world_of connected_deck)) = Some [1]
   /\ forall j, (j < 5)%nat ->
        open_ok (busy_opens 6) (j + opens (world_of connected_deck)) = false)
  /\ value (run (busy_opens 6) _open_control (world_of connected_deck))
     = Raise OpenFailed
  /\ opens (final (run (busy_opens 6) _open_control (world_of connected_deck)))
     = 5%nat.
Proof.
  assert (Hfail : forall j, (j < 5)%nat ->
            open_ok (busy_opens 6) (j + opens (world_of connected_deck)) = false).
  { intros j Hj. destruct j as [|[|[|[|[|j]]]]]; try reflexivity. lia. }
  split; [split; [reflexivity | exact Hfail] |].
  destruct (open_control_gives_up (busy_opens 6) (world_of connected_deck) [1]
              eq_refl Hfail) as (Hv & Ho & _).
  split; [exact Hv | exact Ho].
Defined.

(** X3.  Without a known control path, [_open_control] looks the endpoint up
    itself: with no interface of the usage page and usage 1 it raises
    ControlEndpointNotFound before any open attempt; otherwise it remembers
    the path of the first such interface and opens that path. *)
Theorem open_control_discovers (t : transport) (w : world) :
  _control_path (self w) = None ->
  (find_endpoint 1 (hid_enumerate t VENDOR_ID PRODUCT_ID) = None ->
     run t _open_control w
     = {| value := Raise ControlEndpointNotFound; final := w; emitted := [] |})
  /\ (forall dev,
        find_endpoint 1 (hid_enumerate t VENDOR_ID PRODUCT_ID) = Some dev ->
        run t _open_control w
        = run t (open_retry (seq 0 max_retries) (path dev))
              (with_self (set_control_path (path dev)) w)
        /\ _control_path (self (final (run t _open_control w))) = Some (path dev)).
Proof.
  intros Hnone. split.
  - intros Hfind. unfold _open_control. rewrite run_bind.
    cbn [get_self ret run value final emitted and_then]. rewrite Hnone.
    rewrite run_bind, run_bind.
    cbn [enumerate ret run value final emitted and_then]. now rewrite Hfind.
  - intros dev Hfind.
    assert (Hrun : run t _open_control w
                   = run t (open_retry (seq 0 max_retries) (path dev))
                         (with_self (set_control_path (path dev)) w)).
    { unfold _open_control. rewrite run_bind.
      cbn [get_self ret run value final emitted and_then]. rewrite Hnone.
      rewrite run_bind, run_bind.
      cbn [enumerate ret run value final emitted and_then]. rewrite Hfind.
      rewrite run_bind. cbn [set_self ret run value final emitted and_then].
      unfold and_then. cbn [value final emitted app].
      now destruct (run t _ _). }
    split; [exact Hrun |]. rewrite Hrun.
    rewrite run_no_assign; [reflexivity |]. unfold_methods. nodes assign_leaf.
Qed.

(** A fresh driver finds the control interface by itself. *)
Lemma open_control_discovers_control_only :
  _control_path (self (world_of __init__)) = None
  /\ _control_path (self (final (run (always_ok control_only) _open_control
                                     (world_of __init__)))) = Some [1].
Proof.
  split; [reflexivity |].
  exact (proj2 (proj2 (open_control_discovers (always_ok control_only)
                         (world_of __init__) eq_refl)
                  (Build_hid_info VENDOR_ID PRODUCT_ID USAGE_PAGE 1 [1]) eq_refl)).
Defined.

Lemma run_open_events_found (t : transport) (w : world) (dev : hid_info) :
  _event_path (self w) = None ->
  find_endpoint 2 (hid_enumerate t VENDOR_ID PRODUCT_ID) = Some dev ->
  run t _open_events w
  = if open_ok t (opens w)
    then {| value := Ok (path dev);
            final := count_open (with_self (set_event_path (path dev)) w);
            emitted := [IoOpen (path dev)] |}
    else {| value := Raise OSError;
            final := count_open (with_self (set_event_path (path dev)) w);
            emitted := [IoOpenFail (path dev)] |}.
Proof.
  intros Hnone Hfind. unfold _open_events. rewrite run_bind.
  cbn [get_self ret run value final emitted and_then]. rewrite Hnone.
  rewrite run_bind, run_bind.
  cbn [enumerate ret run value final emitted and_then]. rewrite Hfind.
  rewrite run_bind. cbn [set_self ret run value final emitted and_then].
  rewrite run_bind. cbn [open_path run with_self opens]. cbv zeta.
  now destruct (open_ok t (opens w)).
Qed.

(** X4.  [_open_events] opens the event path once and does not retry: a
    refused open raises OSError after that single attempt.  Without a known
    event path and with no interface of usage 2 it raises
    EventEndpointNotFound before any attempt; a path it finds is remembered
    whether or not the open is accepted. *)
Theorem open_events_once (t : transport) (w : world) :
  (forall p, _event_path (self w) = Some p ->
     run t _open_events w
     = if open_ok t (opens w)
       then {| value := Ok p; final := count_open w; emitted := [IoOpen p] |}
       else {| value := Raise OSError; final := count_open w;
               emitted := [IoOpenFail p] |})
  /\ (_event_path (self w) = None ->
      find_endpoint 2 (hid_enumerate t VENDOR_ID PRODUCT_ID) = None ->
      run t _open_events w
      = {| value := Raise EventEndpointNotFound; final := w; emitted := [] |})
  /\ (forall dev, _event_path (self w) = None ->
      find_endpoint 2 (hid_enumerate t VENDOR_ID PRODUCT_ID) = Some dev ->
      _event_path (self (final (run t _open_events w))) = Some (path dev)
      /\ opens (final (run t _open_events w)) = S (opens w)
      /\ value (run t _open_events w)
         = if open_ok t (opens w) then Ok (path dev) else Raise OSError).
Proof.
  split; [| split].
  - intros p Hp. unfold _open_events. rewrite run_bind.
    cbn [get_self ret run value final emitted and_then]. rewrite Hp.
    rewrite run_bind. cbn [ret run value final emitted and_then].
    rewrite run_bind. cbn [open_path run]. cbv zeta.
    now destruct (open_ok t (opens w)).
  - intros Hnone Hfind. unfold _open_events. rewrite run_bind.
    cbn [get_self ret run value final emitted and_then]. rewrite Hnone.
    rewrite run_bind, run_bind.
    cbn [enumerate ret run value final emitted and_then]. now rewrite Hfind.
  - intros dev Hnone Hfind. rewrite (run_open_events_found t w dev Hnone Hfind).
    now destruct (open_ok t (opens w)).
Qed.

(** ** The init sequence *)



(** ** Calls on a driver that is not connected, or with a wrong slot *)

(** X6.  On a driver that is not connected the two uploads raise
    NotConnected, while [refresh_images], [send_keepalive] and a round of the
    keepalive loop silently do nothing: in all five cases the state is
    untouched and nothing is opened, written or locked. *)
Theorem not_connected_calls (t : transport) (w : world) (button_index : Z)
    (jpeg_data : list Z) (images : list (Z * list Z)) (tk : tick)
    (last_connect : Z) :
  connected (self w) = false ->
  run t (set_button_image button_index jpeg_data) w
  = {| value := Raise NotConnected; final := w; emitted := [] |}
  /\ run t (set_multiple_images images) w
     = {| value := Raise NotConnected; final := w; emitted := [] |}
  /\ run t refresh_images w = {| value := Ok tt; final := w; emitted := [] |}
  /\ run t send_keepalive w = {| value := Ok tt; final := w; emitted := [] |}
  /\ run t (keepalive_round tk last_connect) w
     = {| value := Ok last_connect; final := w; emitted := [] |}.
Proof.
  intros Hc. repeat split.
  - unfold set_button_image. rewrite run_bind.
    cbn [get_self ret run value final emitted and_then]. now rewrite Hc.
  - unfold set_multiple_images. rewrite run_bind.
    cbn [get_self ret run value final emitted and_then]. now rewrite Hc.
  - unfold refresh_images. rewrite run_bind.
    cbn [get_self ret run value final emitted and_then]. now rewrite Hc.
  - unfold send_keepalive. rewrite run_bind.
    cbn [get_self ret run value final emitted and_then]. now rewrite Hc.
  - unfold keepalive_round. rewrite run_bind.
    cbn [get_self ret run value final emitted and_then]. rewrite Hc.
    rewrite run_bind. cbn [ret run value final emitted and_then]. reflexivity.
Qed.

(** A driver that was never connected. *)
Lemma not_connected_calls_fresh :
  connected (self (world_of __init__)) = false
  /\ value (run (always_ok control_only) (set_button_image 0 [1])
                (world_of __init__)) = Raise NotConnected
  /\ value (run (always_ok control_only) refresh_images (world_of __init__))
     = Ok tt.
Proof.
  split; [reflexivity |].
  destruct (not_connected_calls (always_ok control_only) (world_of __init__)
              0 [1] [] {| stop_seen := fun _ => false; now := 0; now_after := 0 |}
              0 eq_refl) as (H1 & _ & H3 & _).
  rewrite H1, H3. now split.
Defined.

(** X7.  On a connected driver, [set_button_image] with a slot outside
    [0,6), negative ones included, raises the ValueError of the slot before
    anything else happens: the cache and the rest of the state are untouched
    and nothing is opened, written or locked. *)
Theorem set_button_image_invalid_slot (t : transport) (w : world)
    (button_index : Z) (jpeg_data : list Z) :
  connected (self w) = true ->
  ~ 0 <= button_index < 6 ->
  run t (set_button_image button_index jpeg_data) w
  = {| value := Raise (InvalidButtonIndex button_index); final := w;
       emitted := [] |}.
Proof.
  intros Hc Hbad. unfold set_button_image. rewrite run_bind.
  cbn [get_self ret run value final emitted and_then]. rewrite Hc. cbn [negb].
  replace (valid_button_index button_index) with false; [reflexivity |].
  symmetry. unfold valid_button_index. apply andb_false_iff.
  destruct (Z.leb_spec 0 button_index); [right | now left].
  apply Z.ltb_ge. lia.
Qed.

(** Slot -1, which Python indexing alone would accept. *)
Lemma set_button_image_invalid_slot_minus_1 :
  (connected (self (world_of connected_deck)) = true /\ ~ 0 <= -1 < 6)
  /\ _map_button_for_image (-1) = Ok 2
  /\ run (always_ok []) (set_button_image (-1) [1]) (world_of connected_deck)
     = {| value := Raise (InvalidButtonIndex (-1));
          final := world_of connected_deck; emitted := [] |}.
Proof.
  split; [split; [reflexivity | lia] |]. split; [reflexivity |].
  exact (set_button_image_invalid_slot (always_ok []) (world_of connected_deck)
           (-1) [1] eq_refl ltac:(lia)).
Defined.

(** ** A successful upload *)

Lemma upload_packets_valid (button_index : Z) (jpeg_data : list Z) :
  valid_button_index button_index = true ->
  exists button_id header,
    _map_button_for_image button_index = Ok button_id
    /\ bat_header (Z.of_nat (length jpeg_data)) button_id = Ok header
    /\ upload_packets button_index jpeg_data
       = map padded (header :: jpeg_chunks jpeg_data ++ [STP_COMMAND]).
Proof.
  intros Hvalid.
  destruct (map_button_valid button_index Hvalid) as (button_id & Hmap & Hid).
  exists button_id. eexists. split; [exact Hmap |]. split.
  - apply bat_header_bytes. lia.
  - unfold upload_packets. rewrite Hmap, bat_header_bytes by lia. reflexivity.
Qed.

(** One upload inside an opened session, nothing refused. *)
Lemma run_upload_accepted (t : transport) (device : list Z) (button_index : Z)
    (jpeg_data : list Z) (w : world) :
  (forall n, write_ok t n = true) ->
  valid_button_index button_index = true ->
  let r := run t (button_id <- lift (_map_button_for_image button_index) ;;
                  _send_jpeg_to_button device button_id jpeg_data) w in
  value r = Ok tt
  /\ written (emitted r) = upload_packets button_index jpeg_data.
Proof.
  intros Hok Hvalid. cbv zeta.
  destruct (upload_packets_valid button_index jpeg_data Hvalid)
    as (button_id & header & Hmap & Hh & ->).
  rewrite run_bind. cbn [lift run value final emitted and_then]. rewrite Hmap.
  destruct (run_send_jpeg_accepted t Hok device jpeg_data header button_id w Hh)
    as [Hv Hw].
  cbv zeta in Hv, Hw. unfold and_then. cbn [value emitted app].
  now split.
Qed.



(** ** The keys of the cache *)

Lemma dict_set_keys (d : Dict.t) (k : Z) (v : list Z) :
  map fst (Dict.set d k v) = map fst d
  \/ (~ In k (map fst d) /\ map fst (Dict.set d k v) = map fst d ++ [k]).
Proof.
  induction d as [|[k' v'] d IH]; cbn [Dict.set map fst app].
  - right. split; [intros [] | reflexivity].
  - destruct (Z.eqb_spec k k') as [->|Hne]; cbn [map fst]; [now left |].
    destruct IH as [IH | [Hnotin IH]]; rewrite IH; [now left | right].
    split; [| reflexivity]. cbn [In]. intros [H|H]; [congruence | contradiction].
Qed.

Lemma dict_set_wf (d : Dict.t) (k : Z) (v : list Z) :
  0 <= k < 6 -> cache_wf d -> cache_wf (Dict.set d k v).
Proof.
  intros Hk [Hnodup Hall]. unfold cache_wf.
  destruct (dict_set_keys d k v) as [-> | [Hnotin ->]]; [now split |].
  split.
  - apply NoDup_app; [exact Hnodup | constructor; [intros [] | constructor] |].
    intros x Hx [<- | []]. contradiction.
  - apply Forall_app. split; [exact Hall | now constructor].
Qed.

Lemma cache_wf_length (d : Dict.t) : cache_wf d -> (length d <= 6)%nat.
Proof.
  intros [Hnodup Hall]. rewrite <- (length_map fst).
  change 6%nat with (length [0; 1; 2; 3; 4; 5]).
  apply NoDup_incl_length; [exact Hnodup |].
  intros k Hk. rewrite Forall_forall in Hall. specialize (Hall k Hk).
  cbn [In]. lia.
Qed.

(** What [set_button_image] does to the cache, whatever happens. *)
Lemma set_button_image_cache_cases (t : transport) (w : world) (button_index : Z)
    (jpeg_data : list Z) :
  _button_images (self (final (run t (set_button_image button_index jpeg_data) w)))
  = _button_images (self w)
  \/ (0 <= button_index < 6
      /\ _button_images (self (final (run t (set_button_image button_index jpeg_data) w)))
         = Dict.set (_button_images (self w)) button_index jpeg_data).
Proof.
  destruct (connected (self w)) eqn:Hc.
  - destruct (valid_button_index button_index) eqn:Hvalid.
    + right. unfold valid_button_index in Hvalid.
      apply andb_true_iff in Hvalid as [H0 H6].
      apply Z.leb_le in H0. apply Z.ltb_lt in H6.
      split; [lia |]. apply set_button_image_cache; [exact Hc | lia].
    + left. unfold set_button_image. rewrite run_bind.
      cbn [get_self ret run value final emitted and_then]. rewrite Hc, Hvalid.
      reflexivity.
  - left. unfold set_button_image. rewrite run_bind.
    cbn [get_self ret run value final emitted and_then]. rewrite Hc.
    reflexivity.
Qed.

(** X9.  The keys of the image cache stay slots in [0,6), each at most once,
    through every call on the driver and through the keepalive loop, so the
    cache never holds more than six images. *)
Theorem cache_keys_are_slots (t : transport) (w : world) :
  cache_wf (_button_images (self w)) ->
  (forall c,
     cache_wf (_button_images (self (final (run t (perform c) w))))
     /\ (length (_button_images (self (final (run t (perform c) w)))) <= 6)%nat)
  /\ (forall start ticks,
        cache_wf (_button_images (self (final (run t (_keepalive_loop start ticks) w))))).
Proof.
  intros Hwf. split.
  - intros c.
    assert (H : cache_wf (_button_images (self (final (run t (perform c) w))))).
    { destruct c as [| |i d|imgs| |]; cbn [perform].
      - now rewrite (run_cache_untouched t _ w connect_cache).
      - now rewrite (run_cache_untouched t _ w send_init_cache).
      - destruct (set_button_image_cache_cases t w i d) as [-> | [Hi ->]];
          [exact Hwf | now apply dict_set_wf].
      - now rewrite (run_cache_untouched t _ w (set_multiple_images_cache imgs)).
      - now rewrite (run_cache_untouched t _ w refresh_images_cache).
      - now rewrite (run_cache_untouched t _ w send_keepalive_cache). }
    split; [exact H | now apply cache_wf_length].
  - intros start ticks.
    now rewrite (run_cache_untouched t _ w (keepalive_loop_cache start ticks)).
Qed.

(** From the empty cache, one upload gives one key. *)
Lemma cache_keys_are_slots_first_upload :
  cache_wf (_button_images (self (world_of connected_deck)))
  /\ cache_wf (_button_images (self (final
        (run (always_ok []) (perform (CallSetButtonImage 0 [1]))
             (world_of connected_deck))))).
Proof.
  assert (Hwf : cache_wf (_button_images (self (world_of connected_deck))))
    by (split; constructor).
  split; [exact Hwf |].
  exact (proj1 (proj1 (cache_keys_are_slots (always_ok []) (world_of connected_deck) Hwf)
                  (CallSetButtonImage 0 [1]))).
Defined.

(** ** Re-sending the cache *)

Lemma cache_wf_valid (d : Dict.t) :
  cache_wf d -> Forall (fun item => valid_button_index (fst item) = true) d.
Proof.
  intros [_ Hall]. rewrite Forall_map in Hall.
  eapply Forall_impl; [| exact Hall]. intros [k v] Hk.
  now apply valid_button_index_true.
Qed.

(** The loop of [refresh_images], nothing refused, every key a slot. *)
Lemma run_uploads_accepted (t : transport) (device : list Z)
    (items : list (Z * list Z)) :
  (forall n, write_ok t n = true) ->
  Forall (fun item => valid_button_index (fst item) = true) items ->
  forall w,
  let r := run t (for_each items (fun '(button_index, jpeg_data) =>
             button_id <- lift (_map_button_for_image button_index) ;;
             _send_jpeg_to_button device button_id jpeg_data)) w in
  value r = Ok tt
  /\ written (emitted r)
     = flat_map (fun '(button_index, jpeg_data) =>
                   upload_packets button_index jpeg_data) items.
Proof.
  intros Hok Hall. cbv zeta.
  induction Hall as [|[button_index jpeg_data] items Hvalid Hall IH]; intros w;
    [now split |].
  cbn [for_each flat_map fst] in *. rewrite run_bind.
  destruct (run_upload_accepted t device button_index jpeg_data w Hok Hvalid)
    as [Hv Hw].
  cbv zeta in Hv, Hw. rewrite Hv. unfold and_then. cbn [value emitted].
  match goal with
  | |- context [run t (for_each items _) ?w'] => destruct (IH w') as [Hv2 Hw2]
  end.
  split; [exact Hv2 |]. now rewrite written_app, Hw, Hw2.
Qed.

(** The loop of the keepalive round: as above, up to the first test that
    finds the stop event set. *)
Lemma run_uploads_until_accepted (t : transport) (device : list Z)
    (stop : nat -> bool) (items : list (Z * list Z)) :
  (forall n, write_ok t n = true) ->
  Forall (fun item => valid_button_index (fst item) = true) items ->
  forall n w,
  let r := run t (for_each_until stop n items (fun '(button_index, jpeg_data) =>
             button_id <- lift (_map_button_for_image button_index) ;;
             _send_jpeg_to_button device button_id jpeg_data)) w in
  value r = Ok tt
  /\ written (emitted r)
     = flat_map (fun '(button_index, jpeg_data) =>
                   upload_packets button_index jpeg_data)
                (until_stop stop n items).
Proof.
  intros Hok Hall. cbv zeta.
  induction Hall as [|[button_index jpeg_data] items Hvalid Hall IH]; intros n w;
    [now split |].
  cbn [for_each_until until_stop fst] in *.
  destruct (stop n); [now split |]. cbn [flat_map]. rewrite run_bind.
  destruct (run_upload_accepted t device button_index jpeg_data w Hok Hvalid)
    as [Hv Hw].
  cbv zeta in Hv, Hw. rewrite Hv. unfold and_then. cbn [value emitted].
  match goal with
  | |- context [run t (for_each_until stop (S n) items _) ?w'] =>
      destruct (IH (S n) w') as [Hv2 Hw2]
  end.
  split; [exact Hv2 |]. now rewrite written_app, Hw, Hw2.
Qed.

Lemma run_accepting_refuses_nothing (t : transport) {A : Type} (p : prog A)
    (w : world) :
  (forall n, write_ok t n = true) -> refused (emitted (run t p w)) = [].
Proof.
  intros Hok. revert w. prog_induction p; intros w; cbn [run emit emitted];
    cbv zeta; auto; try (now apply IH).
  - cbn [emit emitted]. change (?e :: ?x) with ([e] ++ x).
    rewrite refused_app, IH. now destruct (open_ok t (opens w)).
  - rewrite Hok. cbn [emit emitted]. apply IH.
Qed.

(** X10.  On a connected driver whose cache keys are slots, with the control
    device opened at once and no write refused, [refresh_images] re-sends
    every cached image, in the order the slots were first set: for each entry
    the header, the chunks and the stop command. *)
Theorem refresh_images_resends (t : transport) (w : world) (p : list Z) :
  connected (self w) = true ->
  cache_wf (_button_images (self w)) ->
  _control_path (self w) = Some p ->
  open_ok t (opens w) = true ->
  (forall n, write_ok t n = true) ->
  let r := run t refresh_images w in
  value r = Ok tt
  /\ written (emitted r)
     = flat_map (fun '(button_index, jpeg_data) =>
                   upload_packets button_index jpeg_data)
                (Dict.items (_button_images (self w)))
  /\ refused (emitted r) = [].
Proof.
  intros Hc Hwf Hp Hopen Hok. cbv zeta.
  pose proof (run_accepting_refuses_nothing t refresh_images w Hok) as Href.
  revert Href.
  unfold refresh_images. rewrite run_bind.
  cbn [get_self ret run value final emitted and_then]. rewrite Hc. cbn [negb].
  rewrite run_with_control_lock. cbv zeta. cbn [value final emitted].
  rewrite run_bind, (run_open_control_ok t w p Hp Hopen).
  cbn [value final emitted and_then]. rewrite run_try_finally. cbv zeta.
  cbn [dev_close ret run value final emitted emit].
  rewrite run_bind. cbn [get_self ret run value final emitted and_then].
  cbn [count_open self].
  destruct (run_uploads_accepted t p (Dict.items (_button_images (self w))) Hok
              (cache_wf_valid _ Hwf) (count_open w)) as [Hv Hw].
  cbv zeta in Hv, Hw. rewrite Hv. intros Href.
  split; [reflexivity |]. split; [| exact Href].
  change (IoAcquire :: ?x) with ([IoAcquire] ++ x).
  rewrite !written_app, Hw. cbn [written flat_map app]. now rewrite !app_nil_r.
Qed.

Lemma cache_wf_1_0 : cache_wf [(1, [7]); (0, [8])].
Proof.
  split; cbn [map fst].
  - constructor; [cbn [In]; lia |]. constructor; [intros [] | constructor].
  - repeat constructor; lia.
Qed.

(** Slot 1 was set before slot 0: it is re-sent first. *)
Lemma refresh_images_resends_1_then_0 :
  (connected (self (world_of (cached_deck [(1, [7]); (0, [8])]))) = true
   /\ cache_wf (_button_images (self (world_of (cached_deck [(1, [7]); (0, [8])]))))
   /\ _control_path (self (world_of (cached_deck [(1, [7]); (0, [8])]))) = Some [1]
   /\ open_ok (always_ok []) (opens (world_of (cached_deck [(1, [7]); (0, [8])]))) = true
   /\ forall n, write_ok (always_ok []) n = true)
  /\ written (emitted (run (always_ok []) refresh_images
                           (world_of (cached_deck [(1, [7]); (0, [8])]))))
     = upload_packets 1 [7] ++ upload_packets 0 [8] ++ [].
Proof.
  split.
  { split; [reflexivity |]. split; [exact cache_wf_1_0 |].
    split; [reflexivity |]. split; [reflexivity |]. intros n. reflexivity. }
  exact (proj1 (proj2 (refresh_images_resends (always_ok [])
                         (world_of (cached_deck [(1, [7]); (0, [8])])) [1]
                         eq_refl cache_wf_1_0 eq_refl eq_refl (fun _ => eq_refl)))).
Defined.

(** ** The keepalive loop *)

(** The locked part of a keepalive round. *)
Lemma run_keepalive_round (t : transport) (tk : tick) (last_connect : Z) (w : world) :
  connected (self w) = true ->
  Dict.truthy (_button_images (self w)) = true ->
  let session :=
    with_control_lock (
      device <- _open_control ;;
      try_finally (
        self <- get_self ;;
        for_each_until (stop_seen tk) 0 (Dict.items (_button_images self))
          (fun '(button_index, jpeg_data) =>
             button_id <- lift (_map_button_for_image button_index) ;;
             _send_jpeg_to_button device button_id jpeg_data) ;;
        if CONNECT_INTERVAL <=? now tk - last_connect then
          _write_report device CONNECT_COMMAND ;;
          ret (now_after tk)
        else ret last_connect)
        (dev_close device)) in
  run t (keepalive_round tk last_connect) w
  = match value (run t session w) with
    | Ok x => run t session w
    | Raise e => {| value := Ok last_connect; final := final (run t session w);
                    emitted := emitted (run t session w) |}
    end.
Proof.
  intros Hc Hcache. cbv zeta. unfold keepalive_round. rewrite run_bind.
  cbn [get_self ret run value final emitted and_then]. rewrite Hc.
  rewrite run_bind, run_bind.
  cbn [get_self ret run value final emitted and_then]. rewrite Hcache.
  rewrite run_try_except.
  match goal with
  | |- context [value (run t ?s w)] => destruct (run t s w) as [[x|e] w' tr]
  end; cbn [value final emitted is_Exception].
  - unfold and_then. now cbn [value final emitted app].
  - unfold and_then. cbn [ret run value final emitted app]. now rewrite app_nil_r.
Qed.

(** X11.  The keepalive loop never raises: whatever the transport refuses
    and whatever is in the cache, each round ends normally, with the old
    heartbeat time or the new reading of the clock, and so does the loop. *)
Theorem keepalive_never_raises (t : transport) (w : world) :
  (forall tk last_connect,
     value (run t (keepalive_round tk last_connect) w) = Ok last_connect
     \/ value (run t (keepalive_round tk last_connect) w) = Ok (now_after tk))
  /\ (forall start ticks, value (run t (_keepalive_loop start ticks) w) = Ok tt).
Proof.
  assert (Hround : forall w tk last_connect,
            value (run t (keepalive_round tk last_connect) w) = Ok last_connect
            \/ value (run t (keepalive_round tk last_connect) w) = Ok (now_after tk)).
  { clear w. intros w tk last_connect.
    destruct (connected (self w)) eqn:Hc;
      [destruct (Dict.truthy (_button_images (self w))) eqn:Hcache |].
    - rewrite (run_keepalive_round t tk last_connect w Hc Hcache).
      match goal with
      | |- context [value (run t ?s w)] => destruct (run t s w) as [[x|e] w' tr] eqn:Hs
      end; cbn [value]; [| now left].
      revert Hs. rewrite run_with_control_lock. cbv zeta. rewrite run_bind.
      destruct (run t _open_control w) as [[device|e] w1 tr1];
        cbn [value final emitted and_then]; [| discriminate].
      rewrite run_try_finally. cbv zeta.
      cbn [dev_close ret run value final emitted emit].
      rewrite run_bind. cbn [get_self ret run value final emitted and_then].
      rewrite run_bind.
      match goal with
      | |- context [value (run t ?l w1)] => destruct (run t l w1) as [[[]|e] w2 tr2]
      end; cbn [value final emitted and_then]; [| discriminate].
      destruct (CONNECT_INTERVAL <=? now tk - last_connect).
      + rewrite run_bind, run_write_report.
        destruct (write_ok t (writes w2)); cbn [value final emitted and_then ret run];
          [| discriminate].
        intros [= <- _ _]. now right.
      + cbn [ret run value final emitted]. intros [= <- _ _]. now left.
    - left. unfold keepalive_round. rewrite run_bind.
      cbn [get_self ret run value final emitted and_then]. rewrite Hc.
      rewrite run_bind, run_bind.
      cbn [get_self ret run value final emitted and_then]. rewrite Hcache.
      reflexivity.
    - left. unfold keepalive_round. rewrite run_bind.
      cbn [get_self ret run value final emitted and_then]. rewrite Hc.
      rewrite run_bind. cbn [ret run value final emitted and_then]. reflexivity. }
  split; [apply Hround |].
  intros start ticks. unfold _keepalive_loop. revert start w.
  induction ticks as [|tk ticks IH]; intros start w; [reflexivity |].
  cbn [keepalive_rounds]. rewrite run_bind.
  destruct (Hround w tk start) as [Hv | Hv]; rewrite Hv;
    unfold and_then; cbn [value]; rewrite run_bind;
    cbn [sleep ret run value final emitted and_then emit]; apply IH.
Qed.


(** The locked part of a keepalive round, nothing refused. *)
Lemma run_keepalive_session_accepted (t : transport) (w : world) (p : list Z)
    (tk : tick) (last_connect : Z) :
  cache_wf (_button_images (self w)) ->
  _control_path (self w) = Some p -> open_ok t (opens w) = true ->
  (forall n, write_ok t n = true) ->
  let r := run t (
    with_control_lock (
      device <- _open_control ;;
      try_finally (
        self <- get_self ;;
        for_each_until (stop_seen tk) 0 (Dict.items (_button_images self))
          (fun '(button_index, jpeg_data) =>
             button_id <- lift (_map_button_for_image button_index) ;;
             _send_jpeg_to_button device button_id jpeg_data) ;;
        if CONNECT_INTERVAL <=? now tk - last_connect then
          _write_report device CONNECT_COMMAND ;;
          ret (now_after tk)
        else ret last_connect)
        (dev_close device))) w in
  value r = Ok (if CONNECT_INTERVAL <=? now tk - last_connect
                then now_after tk else last_connect)
  /\ written (emitted r)
     = flat_map (fun '(button_index, jpeg_data) =>
                   upload_packets button_index jpeg_data)
         (until_stop (stop_seen tk) 0 (Dict.items (_button_images (self w))))
       ++ (if CONNECT_INTERVAL <=? now tk - last_connect
           then [padded CONNECT_COMMAND] else []).
Proof.
  intros Hwf Hp Hopen Hok. cbv zeta.
  rewrite run_with_control_lock. cbv zeta. cbn [value final emitted].
  rewrite run_bind, (run_open_control_ok t w p Hp Hopen).
  cbn [value final emitted and_then]. rewrite run_try_finally. cbv zeta.
  cbn [dev_close ret run value final emitted emit].
  rewrite run_bind. cbn [get_self ret run value final emitted and_then].
  cbn [count_open self]. rewrite run_bind.
  destruct (run_uploads_until_accepted t p (stop_seen tk)
              (Dict.items (_button_images (self w))) Hok
              (cache_wf_valid _ Hwf) 0%nat (count_open w)) as [Hv Hw].
  cbv zeta in Hv, Hw. rewrite Hv. unfold and_then. cbn [value emitted].
  change (IoAcquire :: ?x) with ([IoAcquire] ++ x).
  rewrite !written_app, Hw.
  destruct (CONNECT_INTERVAL <=? now tk - last_connect).
  - rewrite run_bind, run_write_report, Hok.
    cbn [value final emitted and_then ret run written flat_map app].
    now rewrite !app_nil_r.
  - cbn [ret run value final emitted written flat_map app].
    now rewrite !app_nil_r.
Qed.

(** X12.  A round of the keepalive loop on a connected driver with a
    non-empty, well-formed cache, the control device opened at once and no
    write refused: it re-sends the cached images in insertion order up to the
    first test that finds the stop event set, then, when ten seconds have
    passed since the last heartbeat, writes the CONNECT command and returns
    the new reading of the clock; otherwise it returns the old time.  The
    heartbeat is sent also when the stop event cut the images short. *)
Theorem keepalive_round_accepted (t : transport) (w : world) (p : list Z)
    (tk : tick) (last_connect : Z) :
  connected (self w) = true ->
  Dict.truthy (_button_images (self w)) = true ->
  cache_wf (_button_images (self w)) ->
  _control_path (self w) = Some p -> open_ok t (opens w) = true ->
  (forall n, write_ok t n = true) ->
  let r := run t (keepalive_round tk last_connect) w in
  let due := CONNECT_INTERVAL <=? now tk - last_connect in
  value r = Ok (if due then now_after tk else last_connect)
  /\ written (emitted r)
     = flat_map (fun '(button_index, jpeg_data) =>
                   upload_packets button_index jpeg_data)
         (until_stop (stop_seen tk) 0 (Dict.items (_button_images (self w))))
       ++ (if due then [padded CONNECT_COMMAND] else []).
Proof.
  intros Hc Hcache Hwf Hp Hopen Hok. cbv zeta.
  rewrite (run_keepalive_round t tk last_connect w Hc Hcache). cbv zeta.
  destruct (run_keepalive_session_accepted t w p tk last_connect Hwf Hp Hopen Hok)
    as [Hv Hw].
  cbv zeta in Hv, Hw. rewrite Hv. now split.
Qed.

(** The stop event is found set before the second image; the heartbeat is
    due and is sent all the same. *)
Lemma keepalive_round_accepted_stopped :
  written (emitted (run (always_ok [])
     (keepalive_round {| stop_seen := fun n => (1 <=? n)%nat;
                         now := 10000000; now_after := 10000001 |} 0)
     (world_of (cached_deck [(1, [7]); (0, [8])]))))
  = upload_packets 1 [7] ++ [padded CONNECT_COMMAND].
Proof.
  pose proof (keepalive_round_accepted (always_ok [])
                (world_of (cached_deck [(1, [7]); (0, [8])])) [1]
                {| stop_seen := fun n => (1 <=? n)%nat;
                   now := 10000000; now_after := 10000001 |} 0
                eq_refl eq_refl cache_wf_1_0 eq_refl eq_refl (fun _ => eq_refl))
    as H.
  cbv zeta in H. destruct H as [_ H]. rewrite H.
  cbn [world_of cached_deck self _button_images Dict.items until_stop stop_seen
       Nat.leb flat_map now]. now rewrite app_nil_r.
Defined.



(** ** Device handles *)

Lemma device_safe_subst {A B : Type} (s : list (list Z)) (p : prog A)
    (f : outcome A -> prog B) (mid : outcome A -> list (list Z) -> Prop)
    (post : outcome B -> list (list Z) -> Prop) :
  device_safe s p mid ->
  (forall r s1, mid r s1 -> device_safe s1 (f r) post) ->
  device_safe s (subst p f) post.
Proof.
  revert s. prog_induction p; cbn [subst device_safe]; intros s Hp Hf; auto.
  - destruct Hp as [Ht Hf']. split; apply IH; auto.
  - destruct Hp as (s' & -> & Hk). exists s'. split; [reflexivity |]. now apply IH.
  - destruct Hp as [Hs Hk]. split; [exact Hs |]. intros b. now apply IH.
Qed.

Lemma tidy_bind {A B : Type} (s : list (list Z)) (p : prog A) (k : A -> prog B) :
  tidy s p -> (forall a, tidy s (k a)) -> tidy s (bind p k).
Proof.
  intros Hp Hk. unfold tidy, bind.
  apply device_safe_subst with (mid := fun _ s1 => s1 = s); [exact Hp |].
  intros [a|e] s1 ->; [apply Hk | reflexivity].
Qed.

Lemma tidy_try_finally {A : Type} (s : list (list Z)) (body : prog A)
    (fin : prog unit) :
  tidy s body -> tidy s fin -> tidy s (try_finally body fin).
Proof.
  intros Hb Hf. unfold tidy, try_finally.
  apply device_safe_subst with (mid := fun _ s1 => s1 = s); [exact Hb |].
  intros r s1 ->. apply tidy_bind; [exact Hf | intros; reflexivity].
Qed.

Lemma tidy_try_except {A : Type} (s : list (list Z)) (body : prog A)
    (handles : exn -> bool) (handler : exn -> prog A) :
  tidy s body -> (forall e, tidy s (handler e)) ->
  tidy s (try_except body handles handler).
Proof.
  intros Hb Hh. unfold tidy, try_except.
  apply device_safe_subst with (mid := fun _ s1 => s1 = s); [exact Hb |].
  intros [a|e] s1 ->; [reflexivity |].
  destruct (handles e); [apply Hh | reflexivity].
Qed.

Lemma tidy_with_control_lock {A : Type} (s : list (list Z)) (body : prog A) :
  tidy s body -> tidy s (with_control_lock body).
Proof.
  intros Hb. unfold with_control_lock, tidy. cbn [device_safe].
  apply tidy_try_finally; [exact Hb | reflexivity].
Qed.

Lemma tidy_for_each {X : Type} (s : list (list Z)) (l : list X)
    (body : X -> prog unit) :
  (forall x, tidy s (body x)) -> tidy s (for_each l body).
Proof.
  intros Hb. induction l as [|x l IH]; [reflexivity |].
  cbn [for_each]. apply tidy_bind; auto.
Qed.

Lemma tidy_for_each_until {X : Type} (s : list (list Z)) (stop : nat -> bool)
    (n : nat) (l : list X) (body : X -> prog unit) :
  (forall x, tidy s (body x)) -> tidy s (for_each_until stop n l body).
Proof.
  intros Hb. revert n; induction l as [|x l IH]; intros n; [reflexivity |].
  cbn [for_each_until]. destruct (stop n); [reflexivity |].
  apply tidy_bind; auto.
Qed.

(** [device = open(); try: body finally: device.close()]. *)
Lemma tidy_session {A : Type} (s : list (list Z)) (opener : prog (list Z))
    (body : list Z -> prog A) :
  opens_device s opener -> (forall d, tidy (d :: s) (body d)) ->
  tidy s (device <- opener ;; try_finally (body device) (dev_close device)).
Proof.
  intros Ho Hb. unfold tidy, bind.
  eapply device_safe_subst; [exact Ho |].
  intros [d|e] s1 Hs1; cbn beta iota in Hs1; subst s1; [| reflexivity].
  unfold try_finally.
  apply device_safe_subst with (mid := fun _ s1 => s1 = d :: s); [apply Hb |].
  intros r s1 ->. unfold dev_close, ret, bind. cbn [subst device_safe].
  exists s. now split.
Qed.

Lemma open_retry_opens (s : list (list Z)) (p : list Z) :
  opens_device s (open_retry (seq 0 max_retries) p).
Proof.
  unfold opens_device, max_retries. cbn. repeat split.
Qed.

Lemma open_control_opens (s : list (list Z)) : opens_device s _open_control.
Proof.
  unfold opens_device, _open_control, bind, get_self, ret. cbn [subst device_safe].
  intros x.
  eapply device_safe_subst with (mid := fun r s1 => s1 = s).
  - destruct (_control_path x); [reflexivity |].
    unfold enumerate, ret. cbn [subst device_safe]. intros l.
    destruct (find_endpoint 1 l); reflexivity.
  - intros [p|e] s1 ->; [apply open_retry_opens | reflexivity].
Qed.

Lemma open_events_opens (s : list (list Z)) : opens_device s _open_events.
Proof.
  unfold opens_device, _open_events, bind, get_self, ret. cbn [subst device_safe].
  intros x.
  eapply device_safe_subst with (mid := fun r s1 => s1 = s).
  - destruct (_event_path x); [reflexivity |].
    unfold enumerate, ret. cbn [subst device_safe]. intros l.
    destruct (find_endpoint 2 l); reflexivity.
  - intros [p|e] s1 ->; [| reflexivity]. cbn. now split.
Qed.

(** What the predicate says about a run. *)
Lemma run_device_safe (t : transport) {A : Type} (p : prog A)
    (post : outcome A -> list (list Z) -> Prop) :
  forall s w, device_safe s p post ->
  exists s1, device_use s (emitted (run t p w)) = Some s1
             /\ post (value (run t p w)) s1.
Proof.
  prog_induction p; intros s w Hp; cbn [run device_safe] in *; cbv zeta;
    cbn [emit emitted value device_use]; eauto.
  - destruct Hp as [Ht Hf].
    destruct (open_ok t (opens w)); cbn [device_use]; eauto.
  - destruct Hp as (s' & -> & Hk).
    destruct (list_eq_dec Z.eq_dec q q) as [_ | Hne]; [eauto | now contradiction Hne].
  - destruct Hp as [Hs Hk]. destruct s as [|d s]; [now contradiction Hs |].
    destruct (write_ok t (writes w)); cbn [device_use]; eauto.
Qed.

(** Walks a program down to its opens, closes and writes. *)
Ltac tidies :=
  repeat first
    [ progress intros
    | progress cbv beta zeta
    | apply open_control_opens
    | apply open_events_opens
    | apply tidy_session
    | apply tidy_bind
    | apply tidy_try_finally
    | apply tidy_try_except
    | apply tidy_for_each
    | apply tidy_for_each_until
    | apply tidy_with_control_lock
    | match goal with
      | |- tidy _ (if ?b then _ else _) => destruct b
      | |- tidy _ (match ?x with _ => _ end) => destruct x
      | |- tidy _ _ =>
          progress unfold connect, send_init, set_button_image,
            set_multiple_images, refresh_images, send_keepalive, keepalive_round,
            _send_jpeg_to_button, _write_report, read_button_event,
            read_event_data, main_loop_body
      | |- tidy _ _ =>
          unfold tidy, get_self, set_self, enumerate, sleep, print, dev_write,
            dev_read, lift, ret, raise;
          cbn [device_safe]
      | |- _ /\ _ => split
      | |- _ :: _ <> [] => discriminate
      | |- device_safe _ (if ?b then _ else _) _ => destruct b
      | |- device_safe _ (Ret _) _ => reflexivity
      | |- _ = _ => reflexivity
      end ].

Lemma send_jpeg_tidy (d : list Z) (s : list (list Z)) (button_id : Z)
    (jpeg_data : list Z) :
  tidy (d :: s) (_send_jpeg_to_button d button_id jpeg_data).
Proof. tidies. Qed.

Lemma perform_tidy (s : list (list Z)) (c : call) : tidy s (perform c).
Proof. destruct c; cbn [perform]; tidies. Qed.

Lemma keepalive_round_tidy (s : list (list Z)) (tk : tick) (last_connect : Z) :
  tidy s (keepalive_round tk last_connect).
Proof. tidies. Qed.

Lemma keepalive_loop_tidy (s : list (list Z)) (start : Z) (ticks : list tick) :
  tidy s (_keepalive_loop start ticks).
Proof.
  unfold _keepalive_loop. revert start.
  induction ticks as [|tk ticks IH]; intros start; [reflexivity |].
  cbn [keepalive_rounds]. apply tidy_bind; [apply keepalive_round_tidy |].
  intros last. apply tidy_bind; [reflexivity | intros _; apply IH].
Qed.

Lemma read_button_event_tidy (s : list (list Z)) (event_device : option (list Z)) :
  tidy s (read_button_event event_device).
Proof. destruct event_device; tidies. Qed.

Lemma main_loop_body_tidy (s : list (list Z)) : tidy s main_loop_body.
Proof. tidies. Qed.

(** X14.  No call on the driver leaks a device handle, whatever the
    transport refuses: in every run of a public call, of the keepalive loop,
    of [read_button_event] and of a turn of the event loop, each close is of
    the device opened last, each write happens while a device is open, and
    at the end exactly the devices open at the start are open.  A device
    handed to [read_button_event] is not closed by it. *)
Theorem devices_closed (t : transport) (w : world) (s : list (list Z)) :
  (forall c, device_use s (emitted (run t (perform c) w)) = Some s)
  /\ (forall start ticks,
        device_use s (emitted (run t (_keepalive_loop start ticks) w)) = Some s)
  /\ (forall event_device,
        device_use s (emitted (run t (read_button_event event_device) w)) = Some s)
  /\ device_use s (emitted (run t main_loop_body w)) = Some s.
Proof.
  assert (H : forall (A : Type) (p : prog A),
            tidy s p -> device_use s (emitted (run t p w)) = Some s).
  { intros A p Hp. destruct (run_device_safe t p _ s w Hp) as (s1 & Hs1 & ->).
    exact Hs1. }
  split; [| split; [| split]].
  - intros c. apply H, perform_tidy.
  - intros start ticks. apply H, keepalive_loop_tidy.
  - intros event_device. apply H, read_button_event_tidy.
  - apply H, main_loop_body_tidy.
Qed.

(** ** Reading events *)

Lemma run_read_event_data (t : transport) (w : world) :
  run t read_event_data w
  = {| value := Ok (if (length (read_data t (reads w)) <? 2)%nat then None
                    else Some (nth 0 (read_data t (reads w)) 0,
                               nth 1 (read_data t (reads w)) 0 =? 1));
       final := count_read w;
       emitted := [IoRead (read_data t (reads w))] |}.
Proof.
  unfold read_event_data. rewrite run_bind.
  cbn [dev_read ret run value final emitted emit and_then]. cbv zeta.
  unfold and_then. cbn [value final emitted emit].
  destruct (length (read_data t (reads w)) <? 2)%nat eqn:Hlen.
  - reflexivity.
  - apply Nat.ltb_ge in Hlen.
    rewrite run_bind. cbn [lift run value final emitted and_then].
    rewrite (getitem_nth _ 0 0 eq_refl) by lia.
    unfold and_then. cbn [value final emitted app].
    rewrite run_bind. cbn [lift run value final emitted and_then].
    rewrite (getitem_nth _ 1 1 eq_refl) by lia.
    reflexivity.
Qed.

Lemma run_open_events_known (t : transport) (w : world) (p : list Z) :
  _event_path (self w) = Some p ->
  run t _open_events w
  = if open_ok t (opens w)
    then {| value := Ok p; final := count_open w; emitted := [IoOpen p] |}
    else {| value := Raise OSError; final := count_open w;
            emitted := [IoOpenFail p] |}.
Proof.
  intros Hp. unfold _open_events. rewrite run_bind.
  cbn [get_self ret run value final emitted and_then]. rewrite Hp.
  rewrite run_bind. cbn [ret run value final emitted and_then].
  rewrite run_bind. cbn [open_path run]. cbv zeta.
  now destruct (open_ok t (opens w)).
Qed.

(** X15.  [read_button_event] reads once and never raises on what it reads:
    a timeout or a report of one byte gives None, a longer report gives its
    first byte and whether its second byte is 1.  A device handed in is read
    and left open.  With no device handed in and no event path known it
    returns None without touching the transport; with an event path it
    opens that path once, reads and closes it again, and a refused open
    raises OSError with nothing read. *)
Theorem read_button_event_cases (t : transport) (w : world) :
  let data := read_data t (reads w) in
  let event := if (length data <? 2)%nat then None
               else Some (nth 0 data 0, nth 1 data 0 =? 1) in
  (forall device,
     run t (read_button_event (Some device)) w
     = {| value := Ok event; final := count_read w; emitted := [IoRead data] |})
  /\ (path_truthy (_event_path (self w)) = false ->
      run t (read_button_event None) w
      = {| value := Ok None; final := w; emitted := [] |})
  /\ (forall p, _event_path (self w) = Some p -> p <> [] ->
      run t (read_button_event None) w
      = if open_ok t (opens w)
        then {| value := Ok event; final := count_read (count_open w);
                emitted := [IoOpen p; IoRead data; IoClose p] |}
        else {| value := Raise OSError; final := count_open w;
                emitted := [IoOpenFail p] |}).
Proof.
  cbv zeta. split; [| split].
  - intros device. cbn [read_button_event]. apply run_read_event_data.
  - intros Hp. cbn [read_button_event]. rewrite run_bind.
    cbn [get_self ret run value final emitted and_then]. now rewrite Hp.
  - intros p Hp Hne. cbn [read_button_event]. rewrite run_bind.
    cbn [get_self ret run value final emitted and_then]. rewrite Hp.
    destruct p as [|b p]; [now contradiction Hne |]. cbn [path_truthy negb].
    unfold and_then. cbn [emitted app]. rewrite run_bind.
    rewrite (run_open_events_known t w (b :: p) Hp).
    destruct (open_ok t (opens w)); cbn [value final emitted]; [| reflexivity].
    rewrite run_try_finally. cbv zeta. rewrite run_read_event_data.
    reflexivity.
Qed.

(** ** The event loop of [main] *)

Lemma getitem_beyond (l : list Z) (i : Z) :
  Z.of_nat (length l) <= i -> Py.getitem l i = Raise IndexError.
Proof.
  intros Hi. unfold Py.getitem. cbv zeta.
  destruct (0 <=? i) eqn:H0, (i <? Z.of_nat (length l)) eqn:H1;
    cbn [andb]; try lia.
  destruct (- Z.of_nat (length l) <=? i) eqn:H2, (i <? 0) eqn:H3;
    cbn [andb]; try reflexivity; lia.
Qed.

(** A control report cut short. *)
Lemma main_report_line_short (data : list Z) :
  (2 <= length data < 12)%nat -> nth 0 data 0 = 0x04 ->
  main_report_line data = Raise IndexError.
Proof.
  intros Hlen Hid. unfold main_report_line.
  rewrite (getitem_nth data 0 0 eq_refl) by lia. cbn [obind]. rewrite Hid.
  cbn [Z.eqb Pos.eqb].
  destruct (Nat.eq_dec (length data) 11) as [Hl | Hl].
  - rewrite (getitem_nth data 10 10 eq_refl) by lia. cbn [obind].
    rewrite getitem_beyond by lia. reflexivity.
  - rewrite getitem_beyond by lia. reflexivity.
Qed.

Lemma index_from_contains (l : list Z) (x k : Z) :
  Py.contains l x = true -> exists i, Py.index_from l x k = Ok i.
Proof.
  unfold Py.contains. revert k. induction l as [|y l IH]; intros k; [discriminate |].
  cbn [existsb Py.index_from]. destruct (x =? y); [eauto |]. cbn [orb]. apply IH.
Qed.

(** Every other report of two bytes or more has a line, or none, and what
    it prints for a control report is not a release line. *)
Lemma main_report_line_total (data : list Z) :
  (2 <= length data)%nat ->
  (12 <= length data)%nat \/ nth 0 data 0 <> 0x04 ->
  exists l, main_report_line data = Ok l
            /\ (is_RELEASE l = true ->
                nth 0 data 0 = 0x01 /\ nth 1 data 0 = 0
                /\ l = Some (RELEASE (Py.slice data 0 6))).
Proof.
  intros Hlen Hcase.
  destruct (Z.eq_dec (nth 0 data 0) 0x04) as [Hid | Hid].
  - destruct Hcase as [H12 | Hne]; [| now contradiction Hne].
    rewrite (main_report_line_control data H12 Hid). cbv zeta.
    destruct (Py.contains BUTTON_ID_MAP (nth 10 data 0)) eqn:Hin.
    + destruct (index_from_contains _ _ 0 Hin) as [i Hi]. unfold Py.index.
      rewrite Hi. cbn [obind].
      destruct (nth 11 data 0 =? 1); [eexists; split; [reflexivity | discriminate] |].
      destruct (nth 11 data 0 =? 0); eexists; split; try reflexivity; discriminate.
    + repeat match goal with
             | |- context [if ?c =? ?k then _ else _] => destruct (c =? k)
             end; eexists; split; try reflexivity; discriminate.
  - unfold main_report_line.
    rewrite (getitem_nth data 0 0 eq_refl) by lia. cbn [obind].
    destruct (nth 0 data 0 =? 4) eqn:H4; [apply Z.eqb_eq in H4; contradiction |].
    destruct (nth 0 data 0 =? 1) eqn:H1.
    + rewrite (getitem_nth data 1 1 eq_refl) by lia. cbn [obind].
      apply Z.eqb_eq in H1.
      destruct (nth 1 data 0 =? 0) eqn:Hk.
      * apply Z.eqb_eq in Hk. eexists; split; [reflexivity |]. now intros _.
      * eexists; split; [reflexivity | discriminate].
    + eexists; split; [reflexivity | discriminate].
Qed.

(** One turn of the loop after the read. *)
Lemma run_main_loop_body (t : transport) (w : world) :
  run t main_loop_body w
  = let data := read_data t (reads w) in
    if (length data <? 2)%nat
    then {| value := Ok tt; final := count_read w; emitted := [IoRead data] |}
    else match main_report_line data with
         | Raise e => {| value := Raise e; final := count_read w;
                         emitted := [IoRead data] |}
         | Ok None => {| value := Ok tt; final := count_read w;
                         emitted := [IoRead data] |}
         | Ok (Some text) =>
             let r := run t (if is_RELEASE (Some text)
                             then try_except refresh_images is_Exception
                                    (fun e => print (RefreshFailed e))
                             else ret tt) (count_read w) in
             {| value := value r; final := final r;
                emitted := IoRead data :: IoPrint text :: emitted r |}
         end.
Proof.
  cbv zeta. unfold main_loop_body. rewrite run_bind.
  cbn [dev_read ret run value final emitted emit and_then]. cbv zeta.
  unfold and_then. cbn [value final emitted emit app].
  destruct (length (read_data t (reads w)) <? 2)%nat; [reflexivity |].
  rewrite run_bind. cbn [lift run value final emitted].
  destruct (main_report_line (read_data t (reads w))) as [[text|]|e];
    [| reflexivity | reflexivity].
  unfold and_then. cbn [value final emitted app].
  rewrite run_bind, run_print. cbn [value final emitted].
  unfold and_then. cbn [value final emitted app]. reflexivity.
Qed.

Lemma run_refresh_guarded (t : transport) (w : world) :
  let r := run t (try_except refresh_images is_Exception
                    (fun e => print (RefreshFailed e))) w in
  value r = Ok tt
  /\ emitted r
     = emitted (run t refresh_images w)
       ++ match value (run t refresh_images w) with
          | Ok _ => []
          | Raise e => [IoPrint (RefreshFailed e)]
          end.
Proof.
  cbv zeta. rewrite run_try_except.
  destruct (run t refresh_images w) as [[[]|e] w' tr]; cbn [value final emitted].
  - now rewrite app_nil_r.
  - cbn [is_Exception]. rewrite run_print. unfold and_then.
    cbn [value final emitted]. now split.
Qed.

(** X16.  A turn of the event loop of [main] raises exactly when the report
    read has report id 4 and 2 to 11 bytes: then the index of byte 10 or 11
    is out of range and the IndexError leaves the loop, with nothing
    printed.  In every other case (a timeout, a report of one byte, a
    control report of 12 bytes or more, any other report) the turn ends
    normally, also when re-sending the images after a release fails. *)
Theorem main_loop_body_raises (t : transport) (w : world) :
  let data := read_data t (reads w) in
  let r := run t main_loop_body w in
  (value r = if (2 <=? length data)%nat && (length data <? 12)%nat
                && (nth 0 data 0 =? 0x04)
             then Raise IndexError else Ok tt)
  /\ (value r <> Ok tt -> emitted r = [IoRead data]).
Proof.
  cbv zeta. rewrite run_main_loop_body. cbv zeta.
  destruct (length (read_data t (reads w)) <? 2)%nat eqn:Hlt.
  - apply Nat.ltb_lt in Hlt.
    replace (2 <=? length (read_data t (reads w)))%nat with false
      by (symmetry; apply Nat.leb_gt; lia).
    cbn [andb value emitted]. split; [reflexivity | intros H; now contradiction H].
  - apply Nat.ltb_ge in Hlt.
    replace (2 <=? length (read_data t (reads w)))%nat with true
      by (symmetry; apply Nat.leb_le; lia).
    cbn [andb].
    destruct (length (read_data t (reads w)) <? 12)%nat eqn:H12;
      [apply Nat.ltb_lt in H12 | apply Nat.ltb_ge in H12]; cbn [andb].
    + destruct (nth 0 (read_data t (reads w)) 0 =? 4) eqn:Hid.
      * apply Z.eqb_eq in Hid.
        rewrite main_report_line_short by (lia || exact Hid).
        cbn [value emitted]. now split.
      * apply Z.eqb_neq in Hid.
        destruct (main_report_line_total _ Hlt (or_intror Hid)) as (l & Hl & _).
        rewrite Hl. destruct l as [text|]; cbn [value emitted];
          [| split; [reflexivity | intros H; now contradiction H]].
        cbv zeta. cbn [value emitted].
        assert (Hv : value (run t (if is_RELEASE (Some text)
                             then try_except refresh_images is_Exception
                                    (fun e => print (RefreshFailed e))
                             else ret tt) (count_read w)) = Ok tt).
        { destruct (is_RELEASE (Some text)); [| reflexivity].
          apply run_refresh_guarded. }
        rewrite Hv. split; [reflexivity | intros H; now contradiction H].
    + destruct (main_report_line_total _ Hlt (or_introl H12)) as (l & Hl & _).
      rewrite Hl.
      assert (Hv : forall text,
                 value (run t (if is_RELEASE (Some text)
                             then try_except refresh_images is_Exception
                                    (fun e => print (RefreshFailed e))
                             else ret tt) (count_read w)) = Ok tt).
      { intros text. destruct (is_RELEASE (Some text)); [| reflexivity].
        apply run_refresh_guarded. }
      destruct l as [text|]; cbv zeta; cbn [value emitted]; rewrite ?Hv;
        (destruct (nth 0 (read_data t (reads w)) 0 =? 4);
         (split; [reflexivity | intros H; now contradiction H])).
Qed.

(** A control report of eleven bytes stops the loop. *)
Lemma main_loop_body_raises_on_11_bytes :
  value (run (reading [4; 0; 0; 0; 0; 0; 0; 0; 0; 0; 5]) main_loop_body
             (world_of connected_deck)) = Raise IndexError.
Proof.
  exact (proj1 (main_loop_body_raises (reading [4; 0; 0; 0; 0; 0; 0; 0; 0; 0; 5])
                  (world_of connected_deck))).
Defined.

Lemma refresh_images_prints_nothing (t : transport) (w : world) :
  printed (emitted (run t refresh_images w)) = [].
Proof.
  apply run_no_print. unfold_methods. nodes assign_leaf.
Qed.

(** X17.  What a turn of the event loop does with a report of two bytes or
    more whose report id is not 4.  Report id 1 with key byte 0 prints a
    release line and re-sends the cached images; when that fails the error
    is printed after it and the loop goes on.  Report id 1 with another key
    byte prints a press line, any other report id a raw dump of 24 bytes;
    in both cases nothing is written to the device. *)
Theorem main_loop_body_key_reports (t : transport) (w : world) :
  let data := read_data t (reads w) in
  let r := run t main_loop_body w in
  let refresh := run t refresh_images (count_read w) in
  (2 <= length data)%nat -> nth 0 data 0 <> 0x04 ->
  printed (emitted r)
  = (if nth 0 data 0 =? 0x01 then
       if nth 1 data 0 =? 0 then
         RELEASE (Py.slice data 0 6)
         :: match value refresh with
            | Ok _ => []
            | Raise e => [RefreshFailed e]
            end
       else [PRESS (nth 1 data 0) (Py.slice data 0 6)]
     else [RPT (nth 0 data 0) (Py.slice data 0 24)])
  /\ attempted (emitted r)
     = (if (nth 0 data 0 =? 0x01) && (nth 1 data 0 =? 0)
        then attempted (emitted refresh) else []).
Proof.
  cbv zeta. intros Hlen Hid. rewrite run_main_loop_body. cbv zeta.
  replace (length (read_data t (reads w)) <? 2)%nat with false
    by (symmetry; apply Nat.ltb_ge; lia).
  unfold main_report_line.
  rewrite (getitem_nth _ 0 0 eq_refl) by lia. cbn [obind].
  destruct (nth 0 (read_data t (reads w)) 0 =? 4) eqn:H4;
    [apply Z.eqb_eq in H4; contradiction |].
  destruct (nth 0 (read_data t (reads w)) 0 =? 1).
  - rewrite (getitem_nth _ 1 1 eq_refl) by lia. cbn [obind andb].
    destruct (nth 1 (read_data t (reads w)) 0 =? 0); cbn [is_RELEASE].
    + destruct (run_refresh_guarded t (count_read w)) as [_ He].
      cbv zeta in He. cbn [emitted]. rewrite He.
      change (IoRead ?d :: IoPrint ?l :: ?x) with ([IoRead d; IoPrint l] ++ x).
      rewrite !printed_app, !attempted_app, refresh_images_prints_nothing.
      destruct (value (run t refresh_images (count_read w))); cbn; split;
        try reflexivity; now rewrite app_nil_r.
    + now split.
  - now split.
Qed.

(** Key 7 pressed: one line, nothing written. *)
Lemma main_loop_body_key_reports_press :
  printed (emitted (run (reading [1; 7]) main_loop_body (world_of connected_deck)))
  = [PRESS 7 [1; 7]].
Proof.
  refine (proj1 (main_loop_body_key_reports (reading [1; 7])
                   (world_of connected_deck) _ _)).
  - cbn. lia.
  - cbn. lia.
Defined.

(** ** The packets on the wire *)

Lemma bat_header_id_out_of_range (size button_id : Z) :
  ~ 0 <= button_id < 256 -> bat_header size button_id = Raise ByteRangeError.
Proof.
  intros Hid. unfold bat_header. rewrite high_byte, low_byte.
  assert (Hhi : 0 <= (size / 256) mod 256 < 256) by (apply Z.mod_pos_bound; lia).
  assert (Hlo : 0 <= size mod 256 < 256) by (apply Z.mod_pos_bound; lia).
  set (hi := (size / 256) mod 256) in *. set (lo := size mod 256) in *.
  rewrite bytearray_setitem_ok by (auto; simpl; lia). simpl obind.
  rewrite bytearray_setitem_ok by (auto; simpl; lia). simpl obind.
  unfold Py.bytearray_setitem. cbn [length Nat.ltb Nat.leb negb].
  destruct (0 <=? button_id) eqn:H0, (button_id <? 256) eqn:H1;
    cbn [andb negb]; try reflexivity; lia.
Qed.

Lemma bat_header_length (size button_id : Z) (header : list Z) :
  bat_header size button_id = Ok header -> length header = 13%nat.
Proof.
  intros Hh.
  destruct (Z_le_dec 0 button_id) as [H0 | H0];
    [destruct (Z_lt_dec button_id 256) as [H1 | H1] |].
  - rewrite bat_header_bytes in Hh by lia. now injection Hh as <-.
  - rewrite bat_header_id_out_of_range in Hh by lia. discriminate.
  - rewrite bat_header_id_out_of_range in Hh by lia. discriminate.
Qed.


Lemma run_frames_packets (t : transport) {A : Type} (p : prog A) (w : world) :
  frames_packets p -> Forall well_framed (attempted (emitted (run t p w))).
Proof.
  unfold frames_packets. revert w.
  prog_induction p; intros w Hp; cbn [run all_nodes] in *; cbv zeta;
    cbn [emit emitted attempted flat_map app];
    try match type of Hp with _ /\ _ => destruct Hp as [Hn Hp] end;
    auto; try (now apply IH).
  - destruct (open_ok t (opens w)); cbn [app]; now apply IH.
  - destruct (write_ok t (writes w)); cbn [app]; constructor; auto; now apply IH.
Qed.

Lemma write_report_frames (device payload : list Z) :
  (length payload <= DATA_SIZE)%nat -> frames_packets (_write_report device payload).
Proof.
  intros Hlen. unfold frames_packets, _write_report, lift.
  rewrite report_packet_padded. unfold bind, dev_write. cbn [subst all_nodes].
  split; [| intros []; exact I]. split; [| reflexivity].
  rewrite padded_length. change WRITE_SIZE with (S DATA_SIZE). lia.
Qed.

Lemma send_jpeg_frames (device : list Z) (button_id : Z) (jpeg_data : list Z) :
  frames_packets (_send_jpeg_to_button device button_id jpeg_data).
Proof.
  unfold frames_packets, _send_jpeg_to_button. cbv zeta. unfold lift.
  destruct (bat_header (Z.of_nat (length jpeg_data)) button_id) as [header|e] eqn:Hh;
    [| exact I].
  apply bat_header_length in Hh.
  change (bind (Ret (Ok header)) ?k) with (k header). cbv beta.
  apply all_nodes_bind;
    [apply write_report_frames; rewrite Hh; unfold DATA_SIZE; lia |]. intros _.
  apply all_nodes_bind; [now split |]. intros _.
  apply all_nodes_bind.
  - apply all_nodes_for_each. intros i.
    apply all_nodes_bind; [| intros _; now split].
    apply write_report_frames. rewrite slice_length. lia.
  - intros _. apply all_nodes_bind; [| intros _; now split].
    apply write_report_frames. cbn. unfold DATA_SIZE. lia.
Qed.

(** Walks a program down to its writes. *)
Ltac frames :=
  repeat first
    [ progress intros
    | progress cbv beta zeta
    | apply send_jpeg_frames
    | apply write_report_frames; cbn; unfold DATA_SIZE; lia
    | apply all_nodes_bind
    | apply all_nodes_try_finally
    | apply all_nodes_try_except
    | apply all_nodes_for_each
    | apply all_nodes_for_each_until
    | match goal with
      | |- frames_packets _ => unfold frames_packets
      | |- all_nodes _ (with_control_lock _) => unfold with_control_lock
      | |- all_nodes _ (open_retry _ _) => cbn [open_retry seq]
      | |- all_nodes _ (if ?b then _ else _) => destruct b
      | |- all_nodes _ (match ?x with _ => _ end) => destruct x
      | |- all_nodes _ (Ret _) => exact I
      | |- all_nodes _ _ => progress cbn [all_nodes]
      | |- all_nodes _ _ =>
          progress unfold connect, send_init, set_button_image,
            set_multiple_images, refresh_images, send_keepalive, keepalive_round,
            _open_control, read_button_event, read_event_data, main_loop_body,
            _open_events, get_self, set_self, enumerate, sleep, print, dev_close,
            dev_read, open_path, lift, ret, raise, max_retries
      | |- _ /\ _ => split
      | |- True => exact I
      end ].

Lemma perform_frames (c : call) : frames_packets (perform c).
Proof. destruct c; cbn [perform]; frames. Qed.

Lemma keepalive_round_frames (tk : tick) (last_connect : Z) :
  frames_packets (keepalive_round tk last_connect).
Proof. frames. Qed.

Lemma keepalive_loop_frames (start : Z) (ticks : list tick) :
  frames_packets (_keepalive_loop start ticks).
Proof.
  unfold _keepalive_loop, frames_packets. revert start.
  induction ticks as [|tk ticks IH]; intros start; [exact I |].
  cbn [keepalive_rounds]. apply all_nodes_bind; [apply keepalive_round_frames |].
  intros last. apply all_nodes_bind; [now split | intros _; apply IH].
Qed.

Lemma main_loop_body_frames : frames_packets main_loop_body.
Proof. frames. Qed.

(** X19.  Every packet the driver itself hands to the transport, accepted or
    refused, is exactly [WRITE_SIZE] = 1024 bytes long and begins with the
    report id 4: the payloads it builds (commands, headers, chunks of at
    most 1023 bytes) always fit, in every public call, in the keepalive loop
    and in the event loop. *)
Theorem driver_packets_well_framed (t : transport) (w : world) :
  (forall c, Forall well_framed (attempted (emitted (run t (perform c) w))))
  /\ (forall start ticks,
        Forall well_framed (attempted (emitted (run t (_keepalive_loop start ticks) w))))
  /\ Forall well_framed (attempted (emitted (run t main_loop_body w))).
Proof.
  split; [| split].
  - intros c. apply run_frames_packets, perform_frames.
  - intros start ticks. apply run_frames_packets, keepalive_loop_frames.
  - apply run_frames_packets, main_loop_body_frames.
Qed.

(** ** The heartbeat *)



(** ** Slots and protocol IDs *)

(** X21.  [_map_button_for_image] has no range check of its own: it indexes
    the list of protocol IDs the way Python does, so an index from -6 to -1
    counts from the end and gives the ID of slot [index + 6], and only an
    index below -6 or above 5 raises IndexError.  Every index from -6 to 5
    gives a protocol ID from 1 to 6. *)
Theorem map_button_for_image_range (button_index : Z) :
  (-6 <= button_index < 0 ->
   _map_button_for_image button_index = _map_button_for_image (button_index + 6))
  /\ (button_index < -6 \/ 6 <= button_index ->
      _map_button_for_image button_index = Raise IndexError)
  /\ (-6 <= button_index < 6 ->
      exists button_id, _map_button_for_image button_index = Ok button_id
                        /\ 1 <= button_id <= 6).
Proof.
  unfold _map_button_for_image. split; [| split].
  - intros H.
    assert (Hi : button_index = -6 \/ button_index = -5 \/ button_index = -4
                 \/ button_index = -3 \/ button_index = -2 \/ button_index = -1)
      by lia.
    destruct Hi as [-> | [-> | [-> | [-> | [-> | ->]]]]]; reflexivity.
  - intros H. unfold Py.getitem. cbv zeta.
    change (Z.of_nat (length BUTTON_ID_MAP)) with 6. cbn [Z.opp].
    destruct (Z.leb_spec 0 button_index), (Z.ltb_spec button_index 6);
      cbn [andb]; try lia;
      destruct (Z.leb_spec (- 6) button_index), (Z.ltb_spec button_index 0);
      cbn [andb]; try reflexivity; lia.
  - intros H.
    assert (Hi : button_index = -6 \/ button_index = -5 \/ button_index = -4
                 \/ button_index = -3 \/ button_index = -2 \/ button_index = -1
                 \/ button_index = 0 \/ button_index = 1 \/ button_index = 2
                 \/ button_index = 3 \/ button_index = 4 \/ button_index = 5)
      by lia.
    destruct Hi as [-> | [-> | [-> | [-> | [-> | [-> | [-> | [-> | [-> | [-> | [-> | ->]]]]]]]]]]];
      match goal with
      | |- exists b, ?x = Ok b /\ _ =>
          let v := eval vm_compute in x in
          match v with Ok ?k => exists k; split; [reflexivity | lia] end
      end.
Qed.

(** ** A connect that fails *)

Lemma send_init_prints_nothing (t : transport) (w : world) :
  printed (emitted (run t send_init w)) = [].
Proof. apply run_no_print. unfold_methods. nodes assign_leaf. Qed.

(** X22.  A [connect] that raises leaves [connected] as it was (false on a
    fresh object, still true on one that was connected before) and never
    prints the success line, but it does not undo the discovery: when a
    matching interface was enumerated, the control and event paths hold the
    interfaces found although the call failed. *)
Theorem connect_failure (t : transport) (w : world) :
  let matching :=
    filter (fun d => (vendor_id d =? VENDOR_ID) && (product_id d =? PRODUCT_ID))
           (devices t) in
  let r := run t connect w in
  value r <> Ok tt ->
  connected (self (final r)) = connected (self w)
  /\ printed (emitted r)
     = match matching with
       | [] => [Looking]
       | _ => [Looking; Found (length matching)]
       end
  /\ (matching <> [] ->
      _control_path (self (final r))
      = match find_endpoint 1 (rev matching) with
        | Some d => Some (path d)
        | None => _control_path (self w)
        end
      /\ _event_path (self (final r))
         = match find_endpoint 2 (rev matching) with
           | Some d => Some (path d)
           | None => _event_path (self w)
           end).
Proof.
  cbv zeta. rewrite run_connect. cbv zeta.
  set (matching := filter _ (devices t)).
  destruct (run_connect_paths t matching w) as (Hv & He & Ho & Hw & Hc & Hcp & Hep).
  cbv zeta in Hv, He, Ho, Hw, Hc, Hcp, Hep.
  set (assigned := run t (for_each matching _) w) in *.
  destruct matching as [|d0 l0] eqn:Hm.
  - cbn [value final emitted]. intros _.
    split; [reflexivity |]. split; [reflexivity |]. intros H; now contradiction H.
  - destruct (path_truthy (_control_path (self (final assigned)))) eqn:Htruthy;
      cbn [negb value final emitted].
    + destruct (path_truthy_some _ Htruthy) as (p & Hp & _).
      rewrite run_bind.
      pose proof (run_send_init_self t (final assigned) p Hp) as Hself.
      pose proof (send_init_prints_nothing t (final assigned)) as Hprint.
      destruct (run t send_init (final assigned)) as [[[]|e] w1 tr1];
        cbn [value final emitted and_then] in *.
      * rewrite run_bind. cbn [set_self ret run value final emitted and_then].
        rewrite run_print. unfold and_then. cbn [value].
        intros H; now contradiction H.
      * intros _. rewrite Hself, Hc, Hcp, Hep.
        change (IoPrint Looking :: IoPrint (Found (length (d0 :: l0))) :: tr1)
          with ([IoPrint Looking; IoPrint (Found (length (d0 :: l0)))] ++ tr1).
        rewrite printed_app, Hprint. now repeat split.
    + intros _. rewrite Hc, Hcp, Hep. now repeat split.
Qed.

(** The control interface is found but its device cannot be opened: the path
    is kept, the driver is not connected. *)
Lemma connect_failure_device_busy :
  _control_path (self (final (run
     {| devices := control_only; open_ok := fun _ => false;
        write_ok := fun _ => true; read_data := fun _ => [] |}
     connect (world_of __init__)))) = Some [1]
  /\ connected (self (final (run
     {| devices := control_only; open_ok := fun _ => false;
        write_ok := fun _ => true; read_data := fun _ => [] |}
     connect (world_of __init__)))) = false.
Proof.
  assert (H : value (run
     {| devices := control_only; open_ok := fun _ => false;
        write_ok := fun _ => true; read_data := fun _ => [] |}
     connect (world_of __init__)) <> Ok tt) by (vm_compute; discriminate).
  destruct (connect_failure _ _ H) as (Hc & _ & Hpaths).
  split; [| exact Hc].
  exact (proj1 (Hpaths ltac:(vm_compute; discriminate))).
Defined.

(** ** An upload followed by a refresh *)

(** With the control path known, an upload assigns the cache entry and
    nothing else, whatever the transport does. *)
Lemma run_set_button_image_self (t : transport) (w : world) (p : list Z)
    (button_index : Z) (jpeg_data : list Z) :
  connected (self w) = true -> 0 <= button_index < 6 ->
  _control_path (self w) = Some p ->
  self (final (run t (set_button_image button_index jpeg_data) w))
  = set_button_images_item button_index jpeg_data (self w).
Proof.
  intros Hc Hv Hp. unfold set_button_image. rewrite run_bind.
  cbn [get_self ret run value final emitted and_then].
  rewrite Hc, (valid_button_index_true _ Hv). cbn [negb].
  rewrite run_bind. cbn [set_self ret run value final emitted and_then].
  destruct (map_button_valid _ (valid_button_index_true _ Hv)) as (button_id & Hid & _).
  rewrite run_bind. cbn [lift run value final emitted and_then]. rewrite Hid.
  rewrite run_with_control_lock. cbv zeta. cbn [final].
  set (w' := with_self (set_button_images_item button_index jpeg_data) w).
  assert (Hp' : _control_path (self w') = Some p) by exact Hp.
  change (set_button_images_item button_index jpeg_data (self w)) with (self w').
  rewrite run_bind.
  pose proof (run_open_control_self t w' p Hp') as Hself.
  destruct (run t _open_control w') as [[device|e] w1 tr1];
    cbn [value final emitted and_then] in *; [| exact Hself].
  rewrite <- Hself. apply run_no_assign. unfold_methods. nodes assign_leaf.
Qed.

Lemma run_refresh_images_accepted (t : transport) (w : world) (p : list Z) :
  connected (self w) = true -> cache_wf (_button_images (self w)) ->
  _control_path (self w) = Some p -> open_ok t (opens w) = true ->
  (forall n, write_ok t n = true) ->
  let r := run t refresh_images w in
  value r = Ok tt
  /\ written (emitted r)
     = flat_map (fun '(button_index, jpeg_data) =>
                   upload_packets button_index jpeg_data)
                (Dict.items (_button_images (self w))).
Proof.
  intros Hc Hwf Hp Hopen Hok. cbv zeta.
  unfold refresh_images. rewrite run_bind.
  cbn [get_self ret run value final emitted and_then]. rewrite Hc. cbn [negb].
  rewrite run_with_control_lock. cbv zeta. cbn [value final emitted].
  rewrite run_bind, (run_open_control_ok t w p Hp Hopen).
  cbn [value final emitted and_then]. rewrite run_try_finally. cbv zeta.
  cbn [dev_close ret run value final emitted emit].
  rewrite run_bind. cbn [get_self ret run value final emitted and_then].
  cbn [count_open self].
  destruct (run_uploads_accepted t p (Dict.items (_button_images (self w))) Hok
              (cache_wf_valid _ Hwf) (count_open w)) as [Hv Hw].
  cbv zeta in Hv, Hw. rewrite Hv. split; [reflexivity |].
  change (IoAcquire :: ?x) with ([IoAcquire] ++ x).
  rewrite !written_app, Hw. cbn [written flat_map app]. now rewrite !app_nil_r.
Qed.

Lemma dict_set_split (d : Dict.t) (k : Z) (v : list Z) :
  exists before after, Dict.set d k v = before ++ (k, v) :: after.
Proof.
  induction d as [|[k' v'] d IH]; cbn [Dict.set].
  - now exists [], [].
  - destruct (k =? k') eqn:Hk.
    + apply Z.eqb_eq in Hk as <-. now exists [], d.
    + destruct IH as (before & after & ->). now exists ((k', v') :: before), after.
Qed.

(** X23.  An upload that failed is made up for by the next refresh.  After
    [set_button_image] on a connected driver, whatever the transport did to
    it (a refused write, a device that would not open), a [refresh_images]
    on a transport that refuses nothing sends the complete upload of the new
    image of that slot, and of every other cached slot, with the new image
    in the place of the old one in the order, or last when the slot was not
    cached before. *)
Theorem failed_upload_is_resent (t1 t2 : transport) (w : world) (p : list Z)
    (button_index : Z) (jpeg_data : list Z) :
  connected (self w) = true -> 0 <= button_index < 6 ->
  cache_wf (_button_images (self w)) ->
  _control_path (self w) = Some p ->
  let w1 := final (run t1 (set_button_image button_index jpeg_data) w) in
  open_ok t2 (opens w1) = true ->
  (forall n, write_ok t2 n = true) ->
  let r := run t2 refresh_images w1 in
  value r = Ok tt
  /\ written (emitted r)
     = flat_map (fun '(i, d) => upload_packets i d)
         (Dict.set (_button_images (self w)) button_index jpeg_data)
  /\ (exists before after,
        written (emitted r)
        = before ++ upload_packets button_index jpeg_data ++ after).
Proof.
  intros Hc Hv Hwf Hp. cbv zeta. intros Hopen Hok.
  pose proof (run_set_button_image_self t1 w p button_index jpeg_data Hc Hv Hp)
    as Hself.
  set (w1 := final (run t1 (set_button_image button_index jpeg_data) w)) in *.
  assert (Hc1 : connected (self w1) = true) by (now rewrite Hself).
  assert (Hp1 : _control_path (self w1) = Some p) by (now rewrite Hself).
  assert (Hcache : _button_images (self w1)
                   = Dict.set (_button_images (self w)) button_index jpeg_data)
    by (now rewrite Hself).
  assert (Hwf1 : cache_wf (_button_images (self w1)))
    by (rewrite Hcache; now apply dict_set_wf).
  destruct (run_refresh_images_accepted t2 w1 p Hc1 Hwf1 Hp1 Hopen Hok) as [Hval Hw].
  cbv zeta in Hval, Hw. rewrite Hcache in Hw. unfold Dict.items in Hw.
  split; [exact Hval |]. split; [exact Hw |].
  rewrite Hw.
  destruct (dict_set_split (_button_images (self w)) button_index jpeg_data)
    as (before & after & ->).
  rewrite flat_map_app. cbn [flat_map]. eauto.
Qed.

(** The header of the upload to slot 0 is refused; the refresh that follows
    sends the whole image. *)
Lemma failed_upload_is_resent_after_refusal :
  refused (emitted (run (refusing_write 0) (set_button_image 0 [7])
                        (world_of connected_deck))) <> []
  /\ written (emitted (run (always_ok []) refresh_images
       (final (run (refusing_write 0) (set_button_image 0 [7])
                   (world_of connected_deck)))))
     = upload_packets 0 [7] ++ [].
Proof.
  split; [vm_compute; discriminate |].
  refine (proj1 (proj2 (failed_upload_is_resent (refusing_write 0) (always_ok [])
                          (world_of connected_deck) [1] 0 [7]
                          eq_refl _ _ eq_refl eq_refl (fun _ => eq_refl)))).
  - lia.
  - split; constructor.
Defined.
